(** * Kite turbine simulator: physics tick, deployment, status and projector

    A shallow embedding of the simulation core of
    [components/KiteTurbineSimulation.tsx]: the per-frame [render] routine
    (deployment transition, autopilot torque correction, target tip-speed
    ratio with runaway hysteresis, TSR integration, rpm and kW), the
    throttled UI sampler that derives the status string, the control-panel
    handlers that write the inputs, and the [worldToScreen] projector.

    Modelling conventions.
    - A JavaScript [number] is an exact rational ([Q]); rounding error, NaN
      and infinities of IEEE doubles are outside the model.  Equality of
      numbers is [Qeq] ([==]).
    - React state ([useState]) and refs ([useRef]) of the component are the
      fields of one record [Sim]; every callback of the component is an
      [Event] and [step] is its effect on the record.  A [setTorque] issued
      by a frame is visible to the next frame.  [run] takes the callbacks
      in any order.  In the component a change of an input restarts the
      render effect, whose body runs a frame at once, before the UI timer
      can fire: [component_run] takes the callbacks in that discipline, and
      what is said of the states the UI timer samples is said of its runs.
    - The time between two frames, [dt = (now - lastTime) / 1000], comes
      from the clock and is an argument of the frame.
    - [Math.cos] and [Math.sin] are host functions: the projector takes
      them as section variables. *)

From Stdlib Require Import QArith Qabs Qround Lqa Lia ZArith List String Bool.
Import ListNotations.

Open Scope Q_scope.

(** ** JavaScript numeric primitives *)

Module Js.

Definition leb (a b : Q) : bool := Qle_bool a b.
Definition ltb (a b : Q) : bool := if Qlt_le_dec a b then true else false.
Definition geb (a b : Q) : bool := leb b a.
Definition gtb (a b : Q) : bool := ltb b a.

Definition Math_abs (a : Q) : Q := Qabs a.
Definition Math_max (a b : Q) : Q := if ltb a b then b else a.
Definition Math_min (a b : Q) : Q := if ltb b a then b else a.
Definition Math_floor (a : Q) : Q := inject_Z (Qfloor a).

(** [Math.PI] is the double nearest to pi, 884279719003555 / 2^48. *)
Definition Math_PI : Q := 884279719003555 # 281474976710656.

(** [parseInt] of a slider value: the sliders only produce integers. *)
Definition parseInt (v : Z) : Q := inject_Z v.

Definition is_integer (a : Q) : Prop := exists k : Z, a == inject_Z k.

End Js.

Import Js.

(** ** Constants *)

Definition TSR_MAX_BASE : Q := 6.0.
Definition MAX_SAFE_TORQUE : Q := 80.
Definition ROTOR_RADIUS_SCALE : Q := 1050.
Definition inertia : Q := 0.05.
Definition fov : Q := 2000.

(** ** Component state *)

Record PhysicsState := mkPhysics {
  rpm : Q;
  tsr : Q;
  kw : Q;
  compressionRisk : bool;
  overspeedRisk : bool;
  isRunaway : bool;
  optimalTsr : Q
}.

(** Inputs ([useState]), refs and the throttled UI outputs that the claims
    read.  [uiRpm] and [uiTsr], the camera, the mouse state and the labels
    do not feed back into the physics and are left out. *)
Record Sim := mkSim {
  envWindSpeed : Q;
  torque : Q;
  isAutoPilot : bool;
  bladeCount : Q;
  bladeLengthOut : Q;
  bladeLengthIn : Q;
  physicsState : PhysicsState;
  deploymentRef : Q;
  rotationRef : Q;
  uiStatus : string;
  uiRunaway : bool;
  uiGrounded : bool
}.

Definition initialPhysics : PhysicsState :=
  {| rpm := 0; tsr := 0; kw := 0; compressionRisk := false;
     overspeedRisk := false; isRunaway := false; optimalTsr := 4.0 |}.

Definition initialSim : Sim :=
  {| envWindSpeed := 12; torque := 50; isAutoPilot := false;
     bladeCount := 6; bladeLengthOut := 380; bladeLengthIn := 230;
     physicsState := initialPhysics;
     deploymentRef := 1.0; rotationRef := 0;
     uiStatus := "Initializing"; uiRunaway := false; uiGrounded := false |}.

(** ** Deployment transition (render, "Deployment State Logic") *)

Definition targetDeployment (wind : Q) : Q :=
  let isGroundedCondition := leb wind 3 in
  if isGroundedCondition then 0.0 else 1.0.

Definition deployment_update (wind dt deployment : Q) : Q :=
  let deployDiff := targetDeployment wind - deployment in
  if gtb (Math_abs deployDiff) 0.001
  then deployment + deployDiff * dt * 0.8
  else targetDeployment wind.

(** [depl], the clamped copy that the rest of the frame uses. *)
Definition clamp_deployment (deployment : Q) : Q :=
  Math_max 0 (Math_min 1 deployment).

(** ** Physics simulation (render, "Physics Simulation") *)

Definition bladeCountFactor (bladeCount : Q) : Q := (bladeCount - 6) * 0.25.
Definition hollowFactor (bladeLengthIn : Q) : Q := (1 - bladeLengthIn / 800) * 0.5.
Definition lengthFactor (bladeLengthOut : Q) : Q := (bladeLengthOut - 380) / 1000 * 0.2.

Definition currentOptimalTSR (bladeCount bladeLengthOut bladeLengthIn : Q) : Q :=
  4.0 - bladeCountFactor bladeCount + hollowFactor bladeLengthIn
  + lengthFactor bladeLengthOut.

Definition currentMaxTSR (bladeCount bladeLengthOut bladeLengthIn : Q) : Q :=
  TSR_MAX_BASE - bladeCountFactor bladeCount + hollowFactor bladeLengthIn
  + lengthFactor bladeLengthOut.

(** The clamped torque the autopilot aims at. *)
Definition autopilot_newTorque (torque tsr optimal : Q) : Q :=
  let error := tsr - optimal in
  let correction := error * 2.0 in
  let newTorque := torque + correction in
  Math_max 0 (Math_min MAX_SAFE_TORQUE newTorque).

(** The autopilot block.  The result is [(currentTorque, torque')]: the
    torque the rest of this frame computes with, and the [torque] state
    after the frame's [setTorque]. *)
Definition torque_control (isAutoPilot : bool) (torque tsr optimal : Q) : Q * Q :=
  if isAutoPilot then
    let newTorque := autopilot_newTorque torque tsr optimal in
    if gtb (Math_abs (newTorque - torque)) 0.5
    then (newTorque, torque + (newTorque - torque) * 0.1)
    else (torque, torque)
  else (torque, torque).

Definition requiredTorqueForOptimal (wind : Q) : Q :=
  let windFactor := Math_max 0.1 wind in
  (windFactor / 12) ^ 2 * 100.

Definition brakeRatio (wind currentTorque : Q) : Q :=
  let safeRequired := Math_max 1 (requiredTorqueForOptimal wind) in
  currentTorque / safeRequired.

(** The target-TSR branch.  The result is [(targetTSR, isRunaway')].  [kw]
    is the stored power of the previous frame, read before this frame
    overwrites it. *)
Definition target_tsr (depl wind optimal maxTsr ratio kw : Q) (runaway : bool)
  : Q * bool :=
  if ltb depl 0.5 then (0, runaway)
  else if runaway then
    if leb wind 18 then (optimal, false) else (6.2, true)
  else if geb ratio 1.0 then
    (Math_max 0 (optimal - (ratio - 1.0) * 2.0), false)
  else
    let targetTSR := optimal + (1.0 - ratio) * (maxTsr - optimal) in
    let isPowerSaturated := geb kw 30 in
    (targetTSR, if gtb targetTSR 5.8 && isPowerSaturated then true else false).

Definition rpm_of (tsr wind bladeLengthOut : Q) : Q :=
  let outerRadiusM := (ROTOR_RADIUS_SCALE + bladeLengthOut) / 100 in
  let circumferenceM := 2 * Math_PI * outerRadiusM in
  let tipSpeedMs := tsr * wind in
  (tipSpeedMs * 60) / circumferenceM.

Definition kw_of (currentTorque rpm bladeCount : Q) : Q :=
  let bladePowerFactor := 1 + ((bladeCount - 6) * 0.1) in
  let raw := Math_floor ((currentTorque / 100) * (rpm / 32) * 30 * bladePowerFactor) in
  Math_min 30 (Math_max 0 raw).

(** *** The locals of one frame, as functions of the state before it *)

Definition frame_deployment (s : Sim) (dt : Q) : Q :=
  deployment_update (envWindSpeed s) dt (deploymentRef s).

Definition frame_depl (s : Sim) (dt : Q) : Q :=
  clamp_deployment (frame_deployment s dt).

Definition frame_optimal (s : Sim) : Q :=
  currentOptimalTSR (bladeCount s) (bladeLengthOut s) (bladeLengthIn s).

Definition frame_max (s : Sim) : Q :=
  currentMaxTSR (bladeCount s) (bladeLengthOut s) (bladeLengthIn s).

Definition frame_torque (s : Sim) : Q * Q :=
  torque_control (isAutoPilot s) (torque s) (tsr (physicsState s)) (frame_optimal s).

Definition frame_currentTorque (s : Sim) : Q := fst (frame_torque s).

Definition frame_brakeRatio (s : Sim) : Q :=
  brakeRatio (envWindSpeed s) (frame_currentTorque s).

Definition frame_target (s : Sim) (dt : Q) : Q * bool :=
  target_tsr (frame_depl s dt) (envWindSpeed s) (frame_optimal s) (frame_max s)
    (frame_brakeRatio s) (kw (physicsState s)) (isRunaway (physicsState s)).

Definition frame_targetTSR (s : Sim) (dt : Q) : Q := fst (frame_target s dt).

(** *** One animation frame *)

Definition render (s : Sim) (dt : Q) : Sim :=
  let wind := envWindSpeed s in
  let currentTorque := frame_currentTorque s in
  let tsr' := tsr (physicsState s)
              + (frame_targetTSR s dt - tsr (physicsState s)) * inertia in
  let rpm' := rpm_of tsr' wind (bladeLengthOut s) in
  let radsPerSec := (rpm' / 60) * 2 * Math_PI in
  {| envWindSpeed := wind;
     torque := snd (frame_torque s);
     isAutoPilot := isAutoPilot s;
     bladeCount := bladeCount s;
     bladeLengthOut := bladeLengthOut s;
     bladeLengthIn := bladeLengthIn s;
     physicsState :=
       {| rpm := rpm';
          tsr := tsr';
          kw := kw_of currentTorque rpm' (bladeCount s);
          compressionRisk := gtb currentTorque 85 && gtb wind 10;
          overspeedRisk := gtb tsr' (frame_optimal s * 1.3);
          isRunaway := snd (frame_target s dt);
          optimalTsr := frame_optimal s |};
     deploymentRef := frame_deployment s dt;
     rotationRef := rotationRef s - radsPerSec * dt;
     uiStatus := uiStatus s;
     uiRunaway := uiRunaway s;
     uiGrounded := uiGrounded s |}.

(** ** The throttled UI sampler ([uiInterval]) *)

Definition classify_status (deployment wind tsr optimal : Q) (runaway : bool)
  : string :=
  if ltb deployment 0.5 then "GROUNDED"
  else if runaway then "RUNAWAY"
  else if leb wind 3 then "GROUNDED"
  else if ltb tsr (optimal * 0.6) then "STALL"
  else if gtb tsr (optimal * 1.25) then "OVERSPEED"
  else "OPTIMAL".

Definition grounded_flag (deployment : Q) : bool := ltb deployment 0.1.

Definition sample_status (s : Sim) : string :=
  classify_status (deploymentRef s) (envWindSpeed s)
    (tsr (physicsState s)) (optimalTsr (physicsState s))
    (isRunaway (physicsState s)).

Definition uiInterval (s : Sim) : Sim :=
  {| envWindSpeed := envWindSpeed s;
     torque := torque s;
     isAutoPilot := isAutoPilot s;
     bladeCount := bladeCount s;
     bladeLengthOut := bladeLengthOut s;
     bladeLengthIn := bladeLengthIn s;
     physicsState := physicsState s;
     deploymentRef := deploymentRef s;
     rotationRef := rotationRef s;
     uiStatus := sample_status s;
     uiRunaway := isRunaway (physicsState s);
     uiGrounded := grounded_flag (deploymentRef s) |}.

(** ** Control-panel handlers *)

Definition set_envWindSpeed (s : Sim) (v : Q) : Sim :=
  {| envWindSpeed := v; torque := torque s; isAutoPilot := isAutoPilot s;
     bladeCount := bladeCount s; bladeLengthOut := bladeLengthOut s;
     bladeLengthIn := bladeLengthIn s; physicsState := physicsState s;
     deploymentRef := deploymentRef s; rotationRef := rotationRef s;
     uiStatus := uiStatus s; uiRunaway := uiRunaway s;
     uiGrounded := uiGrounded s |}.

Definition set_torque (s : Sim) (v : Q) : Sim :=
  {| envWindSpeed := envWindSpeed s; torque := v; isAutoPilot := isAutoPilot s;
     bladeCount := bladeCount s; bladeLengthOut := bladeLengthOut s;
     bladeLengthIn := bladeLengthIn s; physicsState := physicsState s;
     deploymentRef := deploymentRef s; rotationRef := rotationRef s;
     uiStatus := uiStatus s; uiRunaway := uiRunaway s;
     uiGrounded := uiGrounded s |}.

Definition set_isAutoPilot (s : Sim) (b : bool) : Sim :=
  {| envWindSpeed := envWindSpeed s; torque := torque s; isAutoPilot := b;
     bladeCount := bladeCount s; bladeLengthOut := bladeLengthOut s;
     bladeLengthIn := bladeLengthIn s; physicsState := physicsState s;
     deploymentRef := deploymentRef s; rotationRef := rotationRef s;
     uiStatus := uiStatus s; uiRunaway := uiRunaway s;
     uiGrounded := uiGrounded s |}.

Definition set_bladeCount (s : Sim) (v : Q) : Sim :=
  {| envWindSpeed := envWindSpeed s; torque := torque s;
     isAutoPilot := isAutoPilot s;
     bladeCount := v; bladeLengthOut := bladeLengthOut s;
     bladeLengthIn := bladeLengthIn s; physicsState := physicsState s;
     deploymentRef := deploymentRef s; rotationRef := rotationRef s;
     uiStatus := uiStatus s; uiRunaway := uiRunaway s;
     uiGrounded := uiGrounded s |}.

Definition set_bladeLengthOut (s : Sim) (v : Q) : Sim :=
  {| envWindSpeed := envWindSpeed s; torque := torque s;
     isAutoPilot := isAutoPilot s;
     bladeCount := bladeCount s; bladeLengthOut := v;
     bladeLengthIn := bladeLengthIn s; physicsState := physicsState s;
     deploymentRef := deploymentRef s; rotationRef := rotationRef s;
     uiStatus := uiStatus s; uiRunaway := uiRunaway s;
     uiGrounded := uiGrounded s |}.

Definition set_bladeLengthIn (s : Sim) (v : Q) : Sim :=
  {| envWindSpeed := envWindSpeed s; torque := torque s;
     isAutoPilot := isAutoPilot s;
     bladeCount := bladeCount s; bladeLengthOut := bladeLengthOut s;
     bladeLengthIn := v; physicsState := physicsState s;
     deploymentRef := deploymentRef s; rotationRef := rotationRef s;
     uiStatus := uiStatus s; uiRunaway := uiRunaway s;
     uiGrounded := uiGrounded s |}.

(** The autopilot button: [disabled={uiRunaway || uiGrounded}],
    [onClick={() => setIsAutoPilot(!isAutoPilot)}].  A disabled button
    delivers no click. *)
Definition autopilot_button (s : Sim) : Sim :=
  if uiRunaway s || uiGrounded s then s
  else set_isAutoPilot s (negb (isAutoPilot s)).

(** The torque slider: [disabled={isAutoPilot || uiRunaway || uiGrounded}],
    [onChange={(e) => !isAutoPilot && setTorque(parseInt(e.target.value))}]. *)
Definition torque_slider (s : Sim) (v : Z) : Sim :=
  if isAutoPilot s || uiRunaway s || uiGrounded s then s
  else if negb (isAutoPilot s) then set_torque s (parseInt v) else s.

(** ** Events of the component *)

Inductive Event : Type :=
| AnimationFrame (dt : Q)      (* requestAnimationFrame(render), dt seconds after the last *)
| UiTimer                      (* the 100 ms setInterval *)
| WindSlider (v : Z)
| TorqueSlider (v : Z)
| AutopilotButton
| BladeLengthOutSlider (v : Z)
| BladeLengthInSlider (v : Z)
| BladeCountSlider (v : Z).

Definition step (s : Sim) (e : Event) : Sim :=
  match e with
  | AnimationFrame dt => render s dt
  | UiTimer => uiInterval s
  | WindSlider v => set_envWindSpeed s (parseInt v)
  | TorqueSlider v => torque_slider s v
  | AutopilotButton => autopilot_button s
  | BladeLengthOutSlider v => set_bladeLengthOut s (parseInt v)
  | BladeLengthInSlider v => set_bladeLengthIn s (parseInt v)
  | BladeCountSlider v => set_bladeCount s (parseInt v)
  end.

Definition run (s : Sim) (evs : list Event) : Sim := fold_left step evs s.

(** What the host can deliver: a range input stays within its [min] and
    [max] attributes, and time does not run backwards between frames. *)
Definition well_formed (e : Event) : Prop :=
  match e with
  | AnimationFrame dt => 0 <= dt
  | UiTimer | AutopilotButton => True
  | WindSlider v => (0 <= v <= 25)%Z
  | TorqueSlider v => (0 <= v <= 100)%Z
  | BladeLengthOutSlider v => (100 <= v <= 1500)%Z
  | BladeLengthInSlider v => (0 <= v <= 800)%Z
  | BladeCountSlider v => (5 <= v <= 12)%Z
  end.

(** The stated bounds of the inputs (section 6 of the specification). *)
Definition inputs_in_range (s : Sim) : Prop :=
  0 <= envWindSpeed s <= 25 /\ 0 <= torque s <= 100
  /\ 5 <= bladeCount s <= 12 /\ 100 <= bladeLengthOut s <= 1500
  /\ 0 <= bladeLengthIn s <= 800.

(** ** Projector *)

Record Point3D := mkPoint3D { p3x : Q; p3y : Q; p3z : Q }.

Record ScreenPoint := mkScreenPoint { scx : Q; scy : Q; scz : Q }.

Record Camera := mkCamera {
  theta : Q; phi : Q; radius : Q;
  targetY : Q; targetX : Q; targetZ : Q
}.

Section Projector.

Variables Math_cos Math_sin : Q -> Q.

Definition worldToScreen (cam : Camera) (p : Point3D) (width height : Q)
  : option ScreenPoint :=
  let x := p3x p - targetX cam in
  let y := p3y p - targetY cam in
  let z := p3z p - targetZ cam in
  let cosT := Math_cos (theta cam) in
  let sinT := Math_sin (theta cam) in
  let x2 := x * cosT - z * sinT in
  let z2 := x * sinT + z * cosT in
  let cosP := Math_cos (phi cam) in
  let sinP := Math_sin (phi cam) in
  let y3 := y * cosP - z2 * sinP in
  let z3 := y * sinP + z2 * cosP in
  let zFinal := z3 - radius cam in
  if geb zFinal 0 then None
  else
    let scale := fov / (fov - zFinal) in
    Some {| scx := width / 2 + x2 * scale;
            scy := height / 2 - y3 * scale;
            scz := zFinal |}.

(** Camera-space coordinates of a world point: translate by the camera
    target, yaw by [theta], pitch by [phi], pull back by [radius]. *)
Definition cam_x (cam : Camera) (p : Point3D) : Q :=
  (p3x p - targetX cam) * Math_cos (theta cam)
  - (p3z p - targetZ cam) * Math_sin (theta cam).

Definition cam_z2 (cam : Camera) (p : Point3D) : Q :=
  (p3x p - targetX cam) * Math_sin (theta cam)
  + (p3z p - targetZ cam) * Math_cos (theta cam).

Definition cam_y (cam : Camera) (p : Point3D) : Q :=
  (p3y p - targetY cam) * Math_cos (phi cam)
  - cam_z2 cam p * Math_sin (phi cam).

Definition zCam (cam : Camera) (p : Point3D) : Q :=
  (p3y p - targetY cam) * Math_sin (phi cam)
  + cam_z2 cam p * Math_cos (phi cam) - radius cam.

End Projector.

(** The camera as the component creates it, with [Math.PI] for pi. *)
Definition initialCamera : Camera :=
  {| theta := Math_PI + (15 * Math_PI / 180);
     phi := 0.1 - (10 * Math_PI / 180);
     radius := 17000 * 0.85;
     targetY := 2500; targetX := -850; targetZ := 1500 |}.

(** * Definitions for the statements *)

(** ** The status precedence as specified *)

(** The precedence as the specification words it: the two grounded tests
    first, together. *)
Definition status_by_spec (deployment wind tsr optimal : Q) (runaway : bool)
  : string :=
  if ltb deployment 0.5 || leb wind 3 then "GROUNDED"
  else if runaway then "RUNAWAY"
  else if ltb tsr (optimal * 0.6) then "STALL"
  else if gtb tsr (optimal * 1.25) then "OVERSPEED"
  else "OPTIMAL".

(** ** Runs, invariant, frame classes *)

(** Runs that consist of animation frames only. *)
Definition frames (dts : list Q) : list Event := map AnimationFrame dts.

(** The length of a list as a number. *)
Definition Qlen {A : Type} (l : list A) : Q := inject_Z (Z.of_nat (List.length l)).

(** What every reachable state satisfies, given inputs within bounds. *)
Definition Inv (s : Sim) : Prop :=
  inputs_in_range s /\ 0 <= tsr (physicsState s).

(** Frames of at most 1.25 s; every other event qualifies. *)
Definition short_frame (e : Event) : Prop :=
  match e with
  | AnimationFrame dt => 0 <= dt <= 1.25
  | _ => True
  end.

(** ** Scenario states *)

(** The component right after the autopilot button was pressed. *)
Definition autopilot_engaged : Sim := step initialSim AutopilotButton.

(** The component after the wind slider was pulled to 0. *)
Definition becalmed : Sim := step initialSim (WindSlider 0).

(** Autopilot engaged, wind pulled to 0, two frames one second apart, and
    the UI timer: the grounded flag is up. *)
Definition grounded_on_autopilot : Sim :=
  run initialSim
    [AutopilotButton; WindSlider 0; AnimationFrame 1; AnimationFrame 1; UiTimer].

(** A state in runaway under a 20 m/s wind. *)
Definition runaway_gale : Sim :=
  {| envWindSpeed := 20; torque := 50; isAutoPilot := false;
     bladeCount := 6; bladeLengthOut := 380; bladeLengthIn := 230;
     physicsState :=
       {| rpm := 80; tsr := 6; kw := 30; compressionRisk := false;
          overspeedRisk := true; isRunaway := true; optimalTsr := 4.35625 |};
     deploymentRef := 1.0; rotationRef := 0;
     uiStatus := "RUNAWAY"; uiRunaway := true; uiGrounded := false |}.

(** Retrieved to the ground (deployment 0.2) with the runaway flag still
    set, the autopilot on and full torque demanded. *)
Definition grounded_runaway : Sim :=
  {| envWindSpeed := 2; torque := 100; isAutoPilot := true;
     bladeCount := 6; bladeLengthOut := 380; bladeLengthIn := 230;
     physicsState :=
       {| rpm := 10; tsr := 3; kw := 30; compressionRisk := false;
          overspeedRisk := false; isRunaway := true; optimalTsr := 4.35625 |};
     deploymentRef := 0.2; rotationRef := 0;
     uiStatus := "GROUNDED"; uiRunaway := true; uiGrounded := false |}.

(** Rational stand-ins for the host's cosine and sine, exact at angle 0,
    to run the projector on concrete poses. *)
Definition cos_near_0 (a : Q) : Q := 1 - a * a / 2.
Definition sin_near_0 (a : Q) : Q := a.

Definition camera_ahead : Camera :=
  {| theta := 0; phi := 0; radius := 1000;
     targetY := 0; targetX := 0; targetZ := 0 |}.

(** * The rest of the frame: scene geometry, draw helpers, labels, camera *)

(** ** Interpolated visual parameters (render, after the deployment update) *)

Definition MAX_BASE_OFFSET_Y : Q := 280.
Definition ELEVATION_ANGLE_DEG : Q := 30.
Definition FLYING_TILT : Q := (90 - ELEVATION_ANGLE_DEG) * Math_PI / 180.
Definition GROUND_TILT : Q := Math_PI / 2.

Definition currentTilt (depl : Q) : Q :=
  GROUND_TILT + (FLYING_TILT - GROUND_TILT) * depl.

Definition currentBaseY (depl : Q) : Q := 20 + (MAX_BASE_OFFSET_Y - 20) * depl.

Definition distScale (depl : Q) : Q := 0.05 + 0.95 * depl.

(** ** Transmission twist of a structure layer (render, "Structure") *)

(** [a || b] on numbers: [b] when [a] is 0. *)
Definition js_or (a b : Q) : Q := if Qeq_bool a 0 then b else a.

(** [layer_y] is the layer's height after scaling by [distScale]. *)
Definition netTwist (currentTorque depl layer_y : Q) : Q :=
  let twistFactor := (currentTorque / 100) * 2.3 in
  let effectiveTwistFactor := twistFactor * depl in
  let effectiveHeight := Math_min layer_y (5000 * distScale depl) in
  let twistAmount :=
    (effectiveHeight / js_or (5000 * distScale depl) 1) * effectiveTwistFactor in
  - twistAmount.

(** ** The generator label's colour (render, "Labels Update") *)

Definition statusColor (tsr optimalTsr wind : Q) (runaway : bool) : string :=
  let c0 := "text-green-400"%string in
  let c1 := if ltb tsr (optimalTsr * 0.6) && geb wind 4
            then "text-amber-400"%string else c0 in
  let c2 := if gtb tsr (optimalTsr * 1.25) then "text-red-400"%string else c1 in
  let c3 := if runaway
            then "text-red-500 font-bold animate-pulse"%string else c2 in
  if leb wind 3 then "text-red-500"%string else c3.

(** The colour the label would have if it followed the status string. *)
Definition color_for_status (status : string) : string :=
  if String.eqb status "GROUNDED" then "text-red-500"
  else if String.eqb status "RUNAWAY" then "text-red-500 font-bold animate-pulse"
  else if String.eqb status "OVERSPEED" then "text-red-400"
  else if String.eqb status "STALL" then "text-amber-400"
  else "text-green-400".

(** ** Draw helpers and labels *)

(** What the paint closure of [drawCylinder] strokes. *)
Record Stroke := mkStroke {
  stroke_from : ScreenPoint;
  stroke_to : ScreenPoint;
  lineWidth : Q;
  strokeStyle : string
}.

(** An entry of [drawQueue] pushed by [drawCylinder]: the depth key and
    what its paint closure strokes, if anything. *)
Record CylinderCommand := mkCylinderCommand {
  cmd_z : Q;
  cmd_draw : option Stroke
}.

Record Point2D := mkPoint2D { p2x : Q; p2y : Q }.

Record LabelData := mkLabelData {
  target : Point2D;
  anchor : Point2D;
  extraText : option string
}.

Section Scene.

Variables Math_cos Math_sin : Q -> Q.

Definition transformPointRotation (tilt : Q) (p : Point3D) : Point3D :=
  let c := Math_cos tilt in
  let s := Math_sin tilt in
  {| p3x := p3x p;
     p3y := p3y p * c - p3z p * s;
     p3z := p3y p * s + p3z p * c |}.

Definition getTurbineWorldPos (depl : Q) (local : Point3D) : Point3D :=
  let rotated := transformPointRotation (currentTilt depl) local in
  {| p3x := p3x rotated;
     p3y := p3y rotated + currentBaseY depl;
     p3z := p3z rotated |}.

Definition drawCylinder (cam : Camera) (width height : Q)
    (start end_ : Point3D) (radius : Q) (color : string)
  : option CylinderCommand :=
  let center :=
    {| p3x := (p3x start + p3x end_) / 2;
       p3y := (p3y start + p3y end_) / 2;
       p3z := (p3z start + p3z end_) / 2 |} in
  match worldToScreen Math_cos Math_sin cam center width height with
  | None => None
  | Some sc =>
      Some {| cmd_z := scz sc;
              cmd_draw :=
                match worldToScreen Math_cos Math_sin cam start width height,
                      worldToScreen Math_cos Math_sin cam end_ width height with
                | Some s1, Some s2 =>
                    Some {| stroke_from := s1; stroke_to := s2;
                            lineWidth := (radius * 2) * (fov / (fov - scz sc));
                            strokeStyle := color |}
                | _, _ => None
                end |}
  end.

Definition getLabelData (cam : Camera) (width height depl : Q)
    (centerY radius : Q) (targetS : option ScreenPoint) (extra : option string)
  : option LabelData :=
  match targetS with
  | None => None
  | Some targetS =>
      let centerP3 := getTurbineWorldPos depl {| p3x := 0; p3y := centerY; p3z := 0 |} in
      match worldToScreen Math_cos Math_sin cam centerP3 width height with
      | None => None
      | Some centerS =>
          let zFinal := scz centerS in
          let scale := fov / (fov - zFinal) in
          let screenRadius := radius * scale in
          let anchorX := scx centerS + screenRadius + 60 in
          let anchorY := scy centerS in
          Some {| target := {| p2x := scx targetS; p2y := scy targetS |};
                  anchor := {| p2x := anchorX; p2y := anchorY |};
                  extraText := extra |}
      end
  end.

End Scene.

(** ** Camera controller *)

Record MouseState := mkMouseState {
  isDragging : bool;
  isPanning : bool;
  lastX : Q;
  lastY : Q
}.

Record View := mkView {
  cameraState : Camera;
  mouseState : MouseState
}.

Definition initialMouse : MouseState :=
  {| isDragging := false; isPanning := false; lastX := 0; lastY := 0 |}.

Definition initialView : View :=
  {| cameraState := initialCamera; mouseState := initialMouse |}.

Inductive MouseEvent : Type :=
| MouseDown (button : Z) (shiftKey : bool) (clientX clientY : Q)
| MouseMove (clientX clientY : Q)
| MouseUp
| MouseLeave
| Wheel (deltaY : Q).

Definition handleMouseDown (v : View) (button : Z) (shiftKey : bool)
    (clientX clientY : Q) : View :=
  {| cameraState := cameraState v;
     mouseState :=
       {| isDragging := true;
          isPanning := Z.eqb button 2 || shiftKey;
          lastX := clientX;
          lastY := clientY |} |}.

Definition handleMouseUp (v : View) : View :=
  {| cameraState := cameraState v;
     mouseState :=
       {| isDragging := false; isPanning := false;
          lastX := lastX (mouseState v); lastY := lastY (mouseState v) |} |}.

Definition handleWheel (v : View) (deltaY : Q) : View :=
  let zoomSpeed := 4 in
  let cam := cameraState v in
  {| cameraState :=
       {| theta := theta cam; phi := phi cam;
          radius := Math_max 200 (Math_min 20000 (radius cam + deltaY * zoomSpeed));
          targetY := targetY cam; targetX := targetX cam;
          targetZ := targetZ cam |};
     mouseState := mouseState v |}.

Section Controller.

Variables Math_cos Math_sin : Q -> Q.

Definition handleMouseMove (v : View) (clientX clientY : Q) : View :=
  let cam := cameraState v in
  let m := mouseState v in
  if negb (isDragging m) then v
  else
    let deltaX := clientX - lastX m in
    let deltaY := clientY - lastY m in
    let cam' :=
      if isPanning m then
        let panFactor := 3 in
        let cosT := Math_cos (theta cam) in
        let sinT := Math_sin (theta cam) in
        {| theta := theta cam; phi := phi cam; radius := radius cam;
           targetY := targetY cam + deltaY * panFactor;
           targetX := targetX cam - deltaX * panFactor * cosT;
           targetZ := targetZ cam + deltaX * panFactor * sinT |}
      else
        let nextPhi := phi cam - deltaY * 0.005 in
        {| theta := theta cam + deltaX * 0.005;
           phi := Math_max (-1.5) (Math_min 1.5 nextPhi);
           radius := radius cam;
           targetY := targetY cam; targetX := targetX cam;
           targetZ := targetZ cam |} in
    {| cameraState := cam';
       mouseState :=
         {| isDragging := isDragging m; isPanning := isPanning m;
            lastX := clientX; lastY := clientY |} |}.

Definition pointer (v : View) (e : MouseEvent) : View :=
  match e with
  | MouseDown button shiftKey x y => handleMouseDown v button shiftKey x y
  | MouseMove x y => handleMouseMove v x y
  | MouseUp | MouseLeave => handleMouseUp v
  | Wheel deltaY => handleWheel v deltaY
  end.

Definition pointer_run (v : View) (es : list MouseEvent) : View :=
  fold_left pointer es v.

End Controller.

(** The camera limits the controller enforces. *)
Definition camera_in_limits (cam : Camera) : Prop :=
  -1.5 <= phi cam <= 1.5 /\ 200 <= radius cam <= 20000.

(** ** Further definitions for the statements *)

(** The point the camera orbits. *)
Definition camera_target (cam : Camera) : Point3D :=
  {| p3x := targetX cam; p3y := targetY cam; p3z := targetZ cam |}.

(** Events under which the wind stays above [w]. *)
Definition wind_above (w : Z) (e : Event) : Prop :=
  match e with
  | WindSlider v => (w < v)%Z
  | _ => True
  end.

(** Events under which the rotor stays retrieved: frames of at most 1.25 s
    and wind settings of at most 3. *)
Definition calm_event (e : Event) : Prop :=
  match e with
  | AnimationFrame dt => 0 <= dt <= 1.25
  | WindSlider v => (v <= 3)%Z
  | _ => True
  end.

(** Mouse events that do not start a pan: no right button, no Shift. *)
Definition no_pan_event (e : MouseEvent) : Prop :=
  match e with
  | MouseDown button shiftKey _ _ => button <> 2%Z /\ shiftKey = false
  | _ => True
  end.

(** Every event but a frame. *)
Definition not_a_frame (e : Event) : Prop :=
  match e with
  | AnimationFrame _ => False
  | _ => True
  end.

(** On autopilot in a 12 m/s wind, [tsr] 4.5 against an optimal 4.35625. *)
Definition cruising_on_autopilot : Sim :=
  {| envWindSpeed := 12; torque := 50; isAutoPilot := true;
     bladeCount := 6; bladeLengthOut := 380; bladeLengthIn := 230;
     physicsState :=
       {| rpm := 36; tsr := 4.5; kw := 16; compressionRisk := false;
          overspeedRisk := false; isRunaway := false; optimalTsr := 4.35625 |};
     deploymentRef := 1.0; rotationRef := 0;
     uiStatus := "OPTIMAL"; uiRunaway := false; uiGrounded := false |}.

(** Unbraked at a [tsr] of 6 in a 12 m/s wind, delivering no power. *)
Definition freewheeling : Sim :=
  {| envWindSpeed := 12; torque := 0; isAutoPilot := false;
     bladeCount := 6; bladeLengthOut := 380; bladeLengthIn := 230;
     physicsState :=
       {| rpm := 48; tsr := 6; kw := 0; compressionRisk := false;
          overspeedRisk := true; isRunaway := false; optimalTsr := 4.35625 |};
     deploymentRef := 1.0; rotationRef := 0;
     uiStatus := "OVERSPEED"; uiRunaway := false; uiGrounded := false |}.

(** Cosine 3/5 and sine 4/5 at every angle: a rational point of the unit
    circle, to run the scene code on concrete inputs. *)
Definition cos_3_5 (a : Q) : Q := 3 # 5.
Definition sin_4_5 (a : Q) : Q := 4 # 5.

(** ** Runs of the component *)

(** The render effect depends on every input ([torque], the blade
    parameters, [envWindSpeed], [isAutoPilot]) and its body calls [render]
    at once.  So the component runs a frame right after the handler of an
    input event, before anything else happens; further frames come from the
    animation callback and from restarts of the effect, and the UI timer
    fires between frames. *)
Inductive Action : Type :=
| Frame (dt : Q)               (* a frame, [dt] seconds after the last *)
| Input (e : Event) (dt : Q)   (* [e], then the frame run at once *)
| Sample.                      (* the 100 ms UI timer *)

Definition component_step (s : Sim) (a : Action) : Sim :=
  match a with
  | Frame dt => render s dt
  | Input e dt => render (step s e) dt
  | Sample => uiInterval s
  end.

Definition component_run (s : Sim) (acts : list Action) : Sim :=
  fold_left component_step acts s.

Definition well_formed_action (a : Action) : Prop :=
  match a with
  | Frame dt => 0 <= dt
  | Input e dt => well_formed e /\ 0 <= dt
  | Sample => True
  end.

(** What holds after every frame of the component: inputs within bounds,
    [tsr] within [[0, 6.974]], no runaway flag on a deployed rotor in a
    wind of at most 3, a saturated [kw] only with a frame torque of at
    least 6.25, and no saturated [kw] in a wind of at most 3. *)
Definition settled (s : Sim) : Prop :=
  Inv s /\ tsr (physicsState s) <= 6.974
  /\ (envWindSpeed s <= 3 -> 0.5 <= deploymentRef s ->
      isRunaway (physicsState s) = false)
  /\ (30 <= kw (physicsState s) -> 6.25 <= frame_currentTorque s)
  /\ (envWindSpeed s <= 3 -> kw (physicsState s) < 30).

(** What a frame needs to end [settled]. *)
Definition frame_ready (s : Sim) : Prop :=
  Inv s /\ tsr (physicsState s) <= 6.974
  /\ (envWindSpeed s <= 3 -> 30 <= kw (physicsState s) ->
      6.25 <= frame_currentTorque s).

(** * Properties *)

(** ** Comparisons and clamps *)

Lemma ltbP (a b : Q) : reflect (a < b) (ltb a b).
Proof.
  unfold ltb. destruct (Qlt_le_dec a b) as [Hlt | Hle].
  - now constructor.
  - constructor. now apply Qle_not_lt.
Qed.

Lemma lebP (a b : Q) : reflect (a <= b) (leb a b).
Proof.
  unfold leb. destruct (Qle_bool a b) eqn:E.
  - constructor. now apply Qle_bool_iff.
  - constructor. intro H. apply Qle_bool_iff in H. congruence.
Qed.

(** Split on the outcome of every comparison in sight. *)
Ltac js_split :=
  unfold gtb, geb in *;
  repeat match goal with
  | |- context [ltb ?a ?b] => destruct (ltbP a b)
  | |- context [leb ?a ?b] => destruct (lebP a b)
  | H : context [ltb ?a ?b] |- _ => destruct (ltbP a b)
  | H : context [leb ?a ?b] |- _ => destruct (lebP a b)
  end.

(** Decide a closed comparison of rationals by evaluation. *)
Ltac qdecide :=
  vm_compute; first [ reflexivity | discriminate | (intro; discriminate) ].

(** Division by a literal becomes multiplication by a literal, which is
    what linear arithmetic understands. *)
Ltac inv_literals :=
  unfold Qdiv in *;
  repeat match goal with
  | |- context [Qinv (Qmake ?n ?d)] =>
      let v := eval vm_compute in (Qinv (Qmake n d)) in
      change (Qinv (Qmake n d)) with v
  | H : context [Qinv (Qmake ?n ?d)] |- _ =>
      let v := eval vm_compute in (Qinv (Qmake n d)) in
      change (Qinv (Qmake n d)) with v in H
  end.

Lemma Math_max_lower (a b : Q) : a <= Math_max a b /\ b <= Math_max a b.
Proof. unfold Math_max. js_split; split; lra. Qed.

Lemma clamp_range (lo hi x : Q) :
  lo <= hi -> lo <= Math_max lo (Math_min hi x) <= hi.
Proof. intros Hlh. unfold Math_max, Math_min. js_split; lra. Qed.

Lemma clamp_deployment_range (d : Q) : 0 <= clamp_deployment d <= 1.
Proof. unfold clamp_deployment. apply clamp_range. lra. Qed.

Lemma clamp_deployment_lt_half (d : Q) : clamp_deployment d < 0.5 <-> d < 0.5.
Proof. unfold clamp_deployment, Math_max, Math_min. js_split; split; lra. Qed.

Lemma is_integer_inject (k : Z) : is_integer (inject_Z k).
Proof. now exists k. Qed.

(** ** Bounds on the aerodynamic coefficients and the target TSR *)

Lemma maxTSR_minus_optimal (bc lo li : Q) :
  currentMaxTSR bc lo li == currentOptimalTSR bc lo li + 2.
Proof. unfold currentMaxTSR, currentOptimalTSR, TSR_MAX_BASE. lra. Qed.

Lemma optimalTSR_positive (bc lo li : Q) :
  bc <= 12 -> 100 <= lo -> li <= 800 -> 2 < currentOptimalTSR bc lo li.
Proof.
  intros Hbc Hlo Hli.
  unfold currentOptimalTSR, bladeCountFactor, hollowFactor, lengthFactor.
  inv_literals. lra.
Qed.

(** Past the deployment gate the target depends on the runaway flag and the
    brake ratio only. *)
Lemma target_tsr_flying (depl wind optimal maxTsr ratio kw : Q) (runaway : bool) :
  0.5 <= depl ->
  target_tsr depl wind optimal maxTsr ratio kw runaway =
  if runaway then
    if leb wind 18 then (optimal, false) else (6.2, true)
  else if geb ratio 1.0 then
    (Math_max 0 (optimal - (ratio - 1.0) * 2.0), false)
  else
    (optimal + (1.0 - ratio) * (maxTsr - optimal),
     if gtb (optimal + (1.0 - ratio) * (maxTsr - optimal)) 5.8 && geb kw 30
     then true else false).
Proof.
  intros Hd. unfold target_tsr. destruct (ltbP depl 0.5); [lra|reflexivity].
Qed.

Lemma target_tsr_nonneg (depl wind optimal maxTsr ratio kw : Q) (runaway : bool) :
  0 <= optimal -> optimal <= maxTsr ->
  0 <= fst (target_tsr depl wind optimal maxTsr ratio kw runaway).
Proof.
  intros Hopt Hmax. unfold target_tsr.
  destruct (ltbP depl 0.5); [simpl; lra|].
  destruct runaway.
  - destruct (lebP wind 18); simpl; lra.
  - unfold geb. destruct (lebP 1.0 ratio); simpl.
    + apply Math_max_lower.
    + assert (0 <= (1.0 - ratio) * (maxTsr - optimal)) by nra. lra.
Qed.

Lemma autopilot_newTorque_range (t tsr optimal : Q) :
  0 <= autopilot_newTorque t tsr optimal <= 80.
Proof. unfold autopilot_newTorque, MAX_SAFE_TORQUE. apply clamp_range. lra. Qed.

Lemma torque_control_range (ap : bool) (t tsr optimal : Q) :
  0 <= t <= 100 ->
  0 <= fst (torque_control ap t tsr optimal) <= 100
  /\ 0 <= snd (torque_control ap t tsr optimal) <= 100.
Proof.
  intros Ht. unfold torque_control.
  pose proof (autopilot_newTorque_range t tsr optimal) as Hn.
  destruct ap; [|simpl; lra].
  destruct (gtb _ _); simpl; lra.
Qed.

Lemma kw_of_range (currentTorque rpm bc : Q) :
  is_integer (kw_of currentTorque rpm bc) /\ 0 <= kw_of currentTorque rpm bc <= 30.
Proof.
  unfold kw_of, Math_min, Math_max, Math_floor.
  js_split; split; try lra;
    first [ apply (is_integer_inject 30) | apply (is_integer_inject 0)
          | apply is_integer_inject ].
Qed.

(** ** The invariant of the component *)

Lemma parseInt_range (lo hi v : Z) :
  (lo <= v <= hi)%Z -> inject_Z lo <= parseInt v <= inject_Z hi.
Proof. intros [H1 H2]. unfold parseInt. rewrite <- !Zle_Qle. lia. Qed.

Lemma render_tsr_nonneg (s : Sim) (dt : Q) :
  Inv s -> 0 <= tsr (physicsState (render s dt)).
Proof.
  intros [(_ & _ & [_ Hbc] & [Hlo _] & [_ Hli]) Htsr]. simpl.
  pose proof (optimalTSR_positive _ _ _ Hbc Hlo Hli) as Hopt.
  pose proof (maxTSR_minus_optimal (bladeCount s) (bladeLengthOut s) (bladeLengthIn s)) as Hmax.
  assert (Ht : 0 <= frame_targetTSR s dt).
  { apply target_tsr_nonneg; unfold frame_optimal, frame_max; lra. }
  unfold inertia. lra.
Qed.

Lemma render_Inv (s : Sim) (dt : Q) : Inv s -> Inv (render s dt).
Proof.
  intros HI. split; [|now apply render_tsr_nonneg].
  destruct HI as [(Hw & Ht & Hrest) _].
  split; [exact Hw|]. split; [|exact Hrest].
  apply (torque_control_range (isAutoPilot s) (torque s)
           (tsr (physicsState s)) (frame_optimal s) Ht).
Qed.

Lemma step_Inv (s : Sim) (e : Event) : well_formed e -> Inv s -> Inv (step s e).
Proof.
  intros Hwf HI. destruct e; simpl in *.
  - now apply render_Inv.
  - exact HI.
  - destruct HI as [(Hw & Hr) Ht]. split; [split; [|exact Hr]|exact Ht].
    apply (parseInt_range 0 25 v Hwf).
  - unfold torque_slider.
    destruct (isAutoPilot s || uiRunaway s || uiGrounded s); [exact HI|].
    destruct (negb (isAutoPilot s)); [|exact HI].
    destruct HI as [(Hw & _ & Hr) Ht].
    split; [split; [exact Hw|split; [|exact Hr]]|exact Ht].
    apply (parseInt_range 0 100 v Hwf).
  - unfold autopilot_button.
    destruct (uiRunaway s || uiGrounded s); exact HI.
  - destruct HI as [(Hw & Hq & Hc & _ & Hi) Ht].
    split; [|exact Ht]. repeat (split; try tauto).
    all: apply (parseInt_range 100 1500 v Hwf).
  - destruct HI as [(Hw & Hq & Hc & Ho & _) Ht].
    split; [|exact Ht]. repeat (split; try tauto).
    all: apply (parseInt_range 0 800 v Hwf).
  - destruct HI as [(Hw & Hq & _ & Ho & Hi) Ht].
    split; [|exact Ht]. repeat (split; try tauto).
    all: apply (parseInt_range 5 12 v Hwf).
Qed.

Lemma run_Inv (evs : list Event) (s : Sim) :
  Forall well_formed evs -> Inv s -> Inv (run s evs).
Proof.
  unfold run. revert s.
  induction evs as [|e evs IH]; intros s Hwf HI; simpl; [exact HI|].
  inversion Hwf; subst. apply IH; [assumption|]. now apply step_Inv.
Qed.

(** ** Deployment transition *)

Lemma Qabs_cases (x : Q) : (0 <= x /\ Qabs x == x) \/ (x <= 0 /\ Qabs x == - x).
Proof.
  destruct (Qlt_le_dec x 0) as [Hneg | Hpos].
  - right. split; [lra|]. apply Qabs_neg. lra.
  - left. split; [exact Hpos|]. now apply Qabs_pos.
Qed.

Lemma targetDeployment_grounded (wind : Q) :
  wind <= 3 -> targetDeployment wind == 0.
Proof.
  intros Hw. unfold targetDeployment. destruct (lebP wind 3); [reflexivity|tauto].
Qed.

Lemma targetDeployment_flying (wind : Q) :
  3 < wind -> targetDeployment wind == 1.
Proof.
  intros Hw. unfold targetDeployment. destruct (lebP wind 3); [lra|reflexivity].
Qed.

Lemma targetDeployment_binary (wind : Q) :
  targetDeployment wind == 0 \/ targetDeployment wind == 1.
Proof.
  destruct (Qlt_le_dec 3 wind).
  - right. now apply targetDeployment_flying.
  - left. now apply targetDeployment_grounded.
Qed.

Lemma deployment_update_ease (wind dt d : Q) :
  0.001 < Qabs (targetDeployment wind - d) ->
  deployment_update wind dt d == d + (targetDeployment wind - d) * dt * 0.8.
Proof.
  intros Hfar. unfold deployment_update, gtb, Math_abs.
  destruct (ltbP 0.001 (Qabs (targetDeployment wind - d))); [reflexivity|tauto].
Qed.

Lemma deployment_update_snap (wind dt d : Q) :
  Qabs (targetDeployment wind - d) <= 0.001 ->
  deployment_update wind dt d = targetDeployment wind.
Proof.
  intros Hnear. unfold deployment_update, gtb, Math_abs.
  destruct (ltbP 0.001 (Qabs (targetDeployment wind - d))); [lra|reflexivity].
Qed.

(** A frame no longer than 1.25 s cannot overshoot the target. *)
Lemma deployment_update_range (wind dt d : Q) :
  0 <= dt <= 1.25 -> 0 <= d <= 1 -> 0 <= deployment_update wind dt d <= 1.
Proof.
  intros Hdt Hd.
  destruct (Qlt_le_dec 0.001 (Qabs (targetDeployment wind - d))) as [Hfar | Hnear].
  - rewrite (deployment_update_ease _ _ _ Hfar).
    destruct (targetDeployment_binary wind) as [E | E]; rewrite E; nra.
  - rewrite (deployment_update_snap _ _ _ Hnear).
    destruct (targetDeployment_binary wind) as [E | E]; rewrite E; lra.
Qed.

(** With the target at 0, a frame whose [0.8 * dt] is [h] away from both 0
    and 2 shrinks the distance to the ground by the factor [1 - h]. *)
Lemma deployment_update_contracts (wind dt d h : Q) :
  wind <= 3 -> h <= 0.8 * dt <= 2 - h ->
  Qabs (deployment_update wind dt d) <= (1 - h) * Qabs d.
Proof.
  intros Hw Hdt.
  pose proof (targetDeployment_grounded wind Hw) as Et.
  destruct (Qlt_le_dec 0.001 (Qabs (targetDeployment wind - d))) as [Hfar | Hnear].
  - rewrite (deployment_update_ease _ _ _ Hfar), Et.
    destruct (Qabs_cases d) as [[Hd Ed] | [Hd Ed]];
      destruct (Qabs_cases (d + (0 - d) * dt * 0.8)) as [[Hu Eu] | [Hu Eu]];
      rewrite Ed, Eu; nra.
  - rewrite (deployment_update_snap _ _ _ Hnear), Et.
    pose proof (Qabs_nonneg d). change (Qabs 0) with 0. nra.
Qed.

Lemma deployment_update_lands (wind dt d : Q) :
  wind <= 3 -> Qabs d <= 0.001 -> deployment_update wind dt d == 0.
Proof.
  intros Hw Hd.
  pose proof (targetDeployment_grounded wind Hw) as Et.
  rewrite deployment_update_snap; [exact Et|].
  rewrite Et.
  destruct (Qabs_cases d) as [[H1 E1] | [H1 E1]];
    destruct (Qabs_cases (0 - d)) as [[H2 E2] | [H2 E2]]; lra.
Qed.

Lemma run_app (s : Sim) (xs ys : list Event) :
  run s (xs ++ ys) = run (run s xs) ys.
Proof. unfold run. apply fold_left_app. Qed.

Lemma run_frames_wind (dts : list Q) (s : Sim) :
  envWindSpeed (run s (frames dts)) = envWindSpeed s.
Proof.
  revert s. induction dts as [|dt dts IH]; intros s; [reflexivity|].
  unfold frames, run in *. simpl. now rewrite IH.
Qed.

Lemma Qlen_nonneg {A : Type} (l : list A) : 0 <= Qlen l.
Proof. unfold Qlen. change 0 with (inject_Z 0). rewrite <- Zle_Qle. lia. Qed.

Lemma Qlen_cons {A : Type} (a : A) (l : list A) : Qlen (a :: l) == Qlen l + 1.
Proof.
  unfold Qlen. simpl List.length. rewrite Nat2Z.inj_succ, <- Z.add_1_r.
  now rewrite inject_Z_plus.
Qed.

(** After [n] grounded frames the distance to 0 has shrunk by [1 + n * h]. *)
Lemma run_frames_deployment_bound (h : Q) (dts : list Q) (s : Sim) :
  0 < h -> envWindSpeed s <= 3 ->
  Forall (fun dt => h <= 0.8 * dt <= 2 - h) dts ->
  Qabs (deploymentRef (run s (frames dts))) * (1 + Qlen dts * h)
  <= Qabs (deploymentRef s).
Proof.
  intros Hh. revert s.
  induction dts as [|dt dts IH]; intros s Hw Hall.
  - change (run s (frames [])) with s. change (Qlen (@nil Q)) with 0. lra.
  - inversion Hall as [|? ? Hdt Hrest]; subst.
    change (run s (frames (dt :: dts))) with (run (render s dt) (frames dts)).
    specialize (IH (render s dt) Hw Hrest).
    pose proof (deployment_update_contracts _ dt (deploymentRef s) h Hw Hdt) as Hc.
    change (deployment_update (envWindSpeed s) dt (deploymentRef s))
      with (deploymentRef (render s dt)) in Hc.
    rewrite Qlen_cons.
    pose proof (Qlen_nonneg dts) as Hn.
    pose proof (Qabs_nonneg (deploymentRef (run (render s dt) (frames dts)))) as Ha.
    pose proof (Qabs_nonneg (deploymentRef s)) as H0.
    set (a := Qabs (deploymentRef (run (render s dt) (frames dts)))) in *.
    set (d1 := Qabs (deploymentRef (render s dt))) in *.
    set (d0 := Qabs (deploymentRef s)) in *.
    set (n := Qlen dts) in *.
    assert (Hnh : 0 <= a * (n * h)).
    { apply Qmult_le_0_compat; [exact Ha|]. apply Qmult_le_0_compat; lra. }
    assert (Hh1 : h <= 1) by lra.
    assert (Hhd : 0 <= h * d0) by (apply Qmult_le_0_compat; lra).
    assert (E1 : a * (1 + n * h) == a + a * (n * h)) by ring.
    assert (E2 : (1 - h) * d0 == d0 - h * d0) by ring.
    assert (Had : a <= d0) by lra.
    assert (Hah : a * h <= d0 * h) by (apply Qmult_le_compat_r; lra).
    assert (E3 : a * (1 + (n + 1) * h) == a * (1 + n * h) + a * h) by ring.
    assert (E4 : d0 * h == h * d0) by ring.
    lra.
Qed.

(** * The claims *)

(** ** C1: runaway hysteresis *)

(** C1.  In a frame whose deployment [depl] is at least 0.5: a runaway
    flag that was false becomes true only if the frame's target TSR exceeds
    5.8 and the stored [kw] is at least 30 (and it does become true when,
    under-braked, both hold); a runaway flag that was true pins the target
    TSR to 6.2 and stays true while the wind speed exceeds 18, and it is
    cleared in the frame exactly when the wind speed is at most 18. *)
Theorem C1_runaway_hysteresis (s : Sim) (dt : Q) :
  0.5 <= frame_depl s dt ->
  (isRunaway (physicsState s) = false ->
     isRunaway (physicsState (render s dt)) = true ->
     5.8 < frame_targetTSR s dt /\ 30 <= kw (physicsState s))
  /\ (isRunaway (physicsState s) = false ->
      frame_brakeRatio s < 1 -> 5.8 < frame_targetTSR s dt ->
      30 <= kw (physicsState s) ->
      isRunaway (physicsState (render s dt)) = true)
  /\ (isRunaway (physicsState s) = true -> 18 < envWindSpeed s ->
      frame_targetTSR s dt = 6.2
      /\ isRunaway (physicsState (render s dt)) = true)
  /\ (isRunaway (physicsState s) = true ->
      (isRunaway (physicsState (render s dt)) = false <-> envWindSpeed s <= 18)).
Proof.
  intros Hd.
  change (isRunaway (physicsState (render s dt))) with (snd (frame_target s dt)).
  unfold frame_targetTSR, frame_target.
  rewrite (target_tsr_flying _ _ _ _ _ _ _ Hd).
  set (free := frame_optimal s + (1.0 - frame_brakeRatio s)
                                 * (frame_max s - frame_optimal s)).
  unfold geb, gtb.
  destruct (isRunaway (physicsState s)).
  - (* already in runaway *)
    split; [discriminate|]. split; [discriminate|].
    destruct (lebP (envWindSpeed s) 18) as [Hcalm | Hgale]; cbn [fst snd].
    + split; [intros _ Hw; lra|]. intros _. split; [trivial|reflexivity].
    + split; [intros _ _; split; reflexivity|].
      intros _. split; [discriminate|]. intros Hw. contradiction.
  - (* not in runaway *)
    destruct (lebP 1.0 (frame_brakeRatio s)) as [Hbrake | Hfree]; cbn [fst snd].
    + split; [discriminate|].
      split; [intros _ Hr; lra|]. split; discriminate.
    + destruct (ltbP 5.8 free) as [Hfast | Hslow];
        destruct (lebP 30 (kw (physicsState s))) as [Hsat | Hlow];
        cbn [andb];
        (split; [first [discriminate | intros _ _; split; assumption]|]);
        (split; [first [intros _ _ ? ?; reflexivity
                       | intros _ _ ? ?; contradiction]|]);
        split; discriminate.
Qed.

Lemma C1_runaway_hysteresis_witness :
  frame_targetTSR runaway_gale 0.016 = 6.2
  /\ isRunaway (physicsState (render runaway_gale 0.016)) = true.
Proof.
  assert (Hd : 0.5 <= frame_depl runaway_gale 0.016) by qdecide.
  destruct (C1_runaway_hysteresis runaway_gale 0.016 Hd) as (_ & _ & Hpin & _).
  apply Hpin; [reflexivity|qdecide].
Defined.

(** ** C3: the default scenario *)

(** C3, as stated, fails: with 6 blades, outer length 380 and inner length
    230 the hollow factor [(1 - 230/800) * 0.5] is 0.35625, not 0, so the
    optimal TSR is not 4.0, the maximal TSR is not 6.0 and the target of the
    first frame is not 5.0. *)
Lemma C3_scenario_counterexample :
  ~ currentOptimalTSR 6 380 230 == 4.0
  /\ ~ currentMaxTSR 6 380 230 == 6.0
  /\ ~ frame_targetTSR initialSim 0.016 == 5.0.
Proof. repeat split; qdecide. Qed.

(** C3, amended.  For wind 12, torque 50, autopilot off, 6 blades, outer
    length 380 and inner length 230, in a deployed frame outside runaway:
    the optimal TSR is 4.35625 and the maximal TSR 6.35625; the required
    torque is 100 and the brake ratio 0.5; the target TSR is
    [optimal + 0.5 * (max - optimal)], that is 5.35625; and [tsr] moves
    toward the target by 5% of the remaining gap. *)
Theorem C3_default_scenario (s : Sim) (dt : Q) :
  envWindSpeed s = 12 -> torque s = 50 -> isAutoPilot s = false ->
  bladeCount s = 6 -> bladeLengthOut s = 380 -> bladeLengthIn s = 230 ->
  isRunaway (physicsState s) = false -> 0.5 <= frame_depl s dt ->
  frame_optimal s == 4.35625
  /\ frame_max s == 6.35625
  /\ requiredTorqueForOptimal (envWindSpeed s) == 100
  /\ frame_brakeRatio s == 0.5
  /\ frame_targetTSR s dt
     == frame_optimal s + 0.5 * (frame_max s - frame_optimal s)
  /\ frame_targetTSR s dt == 5.35625
  /\ tsr (physicsState (render s dt))
     == tsr (physicsState s)
        + 0.05 * (frame_targetTSR s dt - tsr (physicsState s)).
Proof.
  intros Hw Ht Hap Hbc Hlo Hli Hrun Hd.
  assert (Eopt : frame_optimal s = currentOptimalTSR 6 380 230).
  { unfold frame_optimal. now rewrite Hbc, Hlo, Hli. }
  assert (Emax : frame_max s = currentMaxTSR 6 380 230).
  { unfold frame_max. now rewrite Hbc, Hlo, Hli. }
  assert (Eratio : frame_brakeRatio s = brakeRatio 12 50).
  { unfold frame_brakeRatio, frame_currentTorque, frame_torque.
    now rewrite Hw, Hap, Ht. }
  assert (Etarget : frame_targetTSR s dt
            = currentOptimalTSR 6 380 230
              + (1.0 - brakeRatio 12 50)
                * (currentMaxTSR 6 380 230 - currentOptimalTSR 6 380 230)).
  { unfold frame_targetTSR, frame_target.
    rewrite (target_tsr_flying _ _ _ _ _ _ _ Hd), Hrun, Eopt, Emax, Eratio.
    reflexivity. }
  rewrite Hw, Eopt, Emax, Eratio.
  split; [qdecide|]. split; [qdecide|]. split; [qdecide|]. split; [qdecide|].
  rewrite Etarget.
  split; [qdecide|]. split; [qdecide|].
  simpl. rewrite Etarget. unfold inertia. ring.
Qed.

Lemma C3_default_scenario_witness :
  frame_optimal initialSim == 4.35625
  /\ frame_max initialSim == 6.35625
  /\ requiredTorqueForOptimal (envWindSpeed initialSim) == 100
  /\ frame_brakeRatio initialSim == 0.5
  /\ frame_targetTSR initialSim 0.016
     == frame_optimal initialSim
        + 0.5 * (frame_max initialSim - frame_optimal initialSim)
  /\ frame_targetTSR initialSim 0.016 == 5.35625
  /\ tsr (physicsState (render initialSim 0.016))
     == tsr (physicsState initialSim)
        + 0.05 * (frame_targetTSR initialSim 0.016
                  - tsr (physicsState initialSim)).
Proof.
  apply (C3_default_scenario initialSim 0.016); try reflexivity. qdecide.
Defined.

(** ** C4: the autopilot's torque correction *)

(** C4, as stated, fails: in the first autopilot frame the stored torque is
    50 and the clamped target 41.2875; the frame computes its brake ratio
    and power with the target itself, a move of the whole gap, not of at
    most a tenth of it. *)
Lemma C4_autopilot_counterexample :
  isAutoPilot autopilot_engaged = true
  /\ torque autopilot_engaged == 50
  /\ autopilot_newTorque (torque autopilot_engaged)
       (tsr (physicsState autopilot_engaged)) (frame_optimal autopilot_engaged)
     == 41.2875
  /\ frame_currentTorque autopilot_engaged == 41.2875
  /\ 0.1 * Qabs (41.2875 - torque autopilot_engaged)
     < Qabs (frame_currentTorque autopilot_engaged - torque autopilot_engaged).
Proof. repeat split; qdecide. Qed.

(** C4, amended.  With the autopilot on, a frame computes
    [error = tsr - optimalTsr] and [correction = error * 2.0] and clamps
    [torque + correction] to [[0, 80]].  When that target is more than 0.5
    away from the stored torque, the stored torque moves toward it by
    exactly 10% of the gap, while the frame's own physics (brake ratio, kW,
    compression risk) computes with the target itself; otherwise the stored
    torque stays and the frame computes with it. *)
Theorem C4_autopilot_torque (s : Sim) (dt : Q) :
  isAutoPilot s = true ->
  let t := torque s in
  let error := tsr (physicsState s) - frame_optimal s in
  let correction := error * 2.0 in
  let target := autopilot_newTorque t (tsr (physicsState s)) (frame_optimal s) in
  0 <= target <= 80
  /\ (t + correction < 0 -> target == 0)
  /\ (0 <= t + correction <= 80 -> target == t + correction)
  /\ (80 < t + correction -> target == 80)
  /\ (0.5 < Qabs (target - t) ->
      torque (render s dt) == t + 0.1 * (target - t)
      /\ frame_currentTorque s = target)
  /\ (Qabs (target - t) <= 0.5 ->
      torque (render s dt) = t /\ frame_currentTorque s = t).
Proof.
  intros Hap t error correction target.
  split; [apply autopilot_newTorque_range|].
  assert (Hclamp : (t + correction < 0 -> target == 0)
                   /\ (0 <= t + correction <= 80 -> target == t + correction)
                   /\ (80 < t + correction -> target == 80)).
  { subst target correction error.
    unfold autopilot_newTorque, Math_max, Math_min, MAX_SAFE_TORQUE.
    js_split; repeat split; intros; lra. }
  destruct Hclamp as (H1 & H2 & H3).
  repeat (split; [assumption|]).
  change (torque (render s dt)) with (snd (frame_torque s)).
  unfold frame_currentTorque, frame_torque, torque_control.
  rewrite Hap. fold t. change (autopilot_newTorque t _ _) with target.
  unfold gtb, Math_abs.
  destruct (ltbP 0.5 (Qabs (target - t))) as [Hfar | Hnear]; cbn [fst snd].
  - split; intros Hgap; [|lra]. split; [ring|reflexivity].
  - split; intros Hgap; [contradiction|]. split; reflexivity.
Qed.

Lemma C4_autopilot_torque_witness :
  torque (render autopilot_engaged 0.016) == 49.12875
  /\ frame_currentTorque autopilot_engaged == 41.2875.
Proof.
  destruct (C4_autopilot_torque autopilot_engaged 0.016 eq_refl)
    as (_ & _ & _ & _ & Hfar & _).
  destruct Hfar as [Hstored Happlied]; [qdecide|].
  split.
  - rewrite Hstored. qdecide.
  - rewrite Happlied. qdecide.
Defined.

(** ** C5: grounding *)

(** With frames 2.5 s apart the grounded deployment flips its sign and
    keeps its distance. *)
Lemma grounded_flip_flop (s : Sim) :
  envWindSpeed s <= 3 -> Qabs (deploymentRef s) == 1 ->
  Qabs (deploymentRef (render s 2.5)) == 1.
Proof.
  intros Hw Hd.
  change (deploymentRef (render s 2.5))
    with (deployment_update (envWindSpeed s) 2.5 (deploymentRef s)).
  pose proof (targetDeployment_grounded _ Hw) as Et.
  assert (Hfar : 0.001 < Qabs (targetDeployment (envWindSpeed s) - deploymentRef s)).
  { destruct (Qabs_cases (targetDeployment (envWindSpeed s) - deploymentRef s))
      as [[? ?] | [? ?]];
      destruct (Qabs_cases (deploymentRef s)) as [[? ?] | [? ?]]; lra. }
  pose proof (deployment_update_ease _ 2.5 _ Hfar) as Eu.
  destruct (Qabs_cases (deployment_update (envWindSpeed s) 2.5 (deploymentRef s)))
    as [[? ?] | [? ?]];
    destruct (Qabs_cases (deploymentRef s)) as [[? ?] | [? ?]]; lra.
Qed.

Lemma grounded_flip_flop_forever (n : nat) (s : Sim) :
  envWindSpeed s <= 3 -> Qabs (deploymentRef s) == 1 ->
  Qabs (deploymentRef (run s (frames (repeat 2.5 n)))) == 1.
Proof.
  revert s. induction n as [|n IH]; intros s Hw Hd; [exact Hd|].
  change (run s (frames (repeat 2.5 (S n))))
    with (run (render s 2.5) (frames (repeat 2.5 n))).
  apply IH; [exact Hw|]. now apply grounded_flip_flop.
Qed.

(** With frames one second apart the deployment goes 1, 0.2, 0.04, 0.008,
    0.0016, 0.00032 and is set to 0 by the sixth frame. *)
Example grounded_in_six_frames :
  deploymentRef (run becalmed (frames [1; 1; 1; 1; 1])) == 0.00032
  /\ deploymentRef (run becalmed (frames [1; 1; 1; 1; 1; 1])) == 0.
Proof. split; qdecide. Qed.

(** C5, as stated, fails: under a wind of 0 and frames 2.5 s apart the
    deployment never reaches 0. *)
Lemma C5_convergence_counterexample :
  envWindSpeed becalmed <= 3
  /\ ~ (exists N : nat, forall n : nat, (N <= n)%nat ->
          deploymentRef (run becalmed (frames (repeat 2.5 n))) == 0).
Proof.
  split; [qdecide|].
  intros [N HN]. specialize (HN N (Nat.le_refl N)).
  assert (Hflip : Qabs (deploymentRef (run becalmed (frames (repeat 2.5 N)))) == 1).
  { apply grounded_flip_flop_forever; qdecide. }
  destruct (Qabs_cases (deploymentRef (run becalmed (frames (repeat 2.5 N)))))
    as [[? ?] | [? ?]]; lra.
Qed.

Lemma grounded_frames_land (h : Q) (s : Sim) :
  0 < h -> envWindSpeed s <= 3 ->
  exists N : nat, forall dts : list Q,
    (N <= List.length dts)%nat ->
    Forall (fun dt => h <= 0.8 * dt <= 2 - h) dts ->
    deploymentRef (run s (frames dts)) == 0.
Proof.
  intros Hh Hw.
  set (D := Qabs (deploymentRef s)).
  set (N0 := Z.to_nat (Qceiling (1000 * D / h))).
  exists (S N0). intros dts Hlen Hall.
  destruct (exists_last (l := dts)) as (l & x & ->).
  { intros ->. simpl in Hlen. lia. }
  apply Forall_app in Hall as [Hl Hx].
  inversion Hx as [|? ? Hdt _]; subst.
  unfold frames. rewrite map_app, run_app. fold (frames l).
  change (run (run s (frames l)) (map AnimationFrame [x]))
    with (render (run s (frames l)) x).
  change (deploymentRef (render (run s (frames l)) x))
    with (deployment_update (envWindSpeed (run s (frames l))) x
            (deploymentRef (run s (frames l)))).
  rewrite run_frames_wind.
  apply deployment_update_lands; [exact Hw|].
  pose proof (run_frames_deployment_bound h l s Hh Hw Hl) as Hb.
  fold D in Hb.
  pose proof (Qabs_nonneg (deploymentRef s)) as HD. fold D in HD.
  pose proof (Qabs_nonneg (deploymentRef (run s (frames l)))) as Ha.
  set (a := Qabs (deploymentRef (run s (frames l)))) in *.
  assert (Hm : 1000 * D <= Qlen l * h).
  { assert (Hc : 1000 * D / h <= Qlen l).
    { apply Qle_trans with (inject_Z (Qceiling (1000 * D / h)));
        [apply Qle_ceiling|].
      unfold Qlen. rewrite <- Zle_Qle.
      rewrite length_app in Hlen. simpl in Hlen. subst N0. lia. }
    assert (E : 1000 * D == 1000 * D / h * h) by (field; lra).
    rewrite E. apply Qmult_le_compat_r; lra. }
  destruct (Qlt_le_dec 0.001 a) as [Hbig | Hsmall]; [exfalso|exact Hsmall].
  assert (H1 : a * (1000 * D) <= a * (Qlen l * h)).
  { rewrite !(Qmult_comm a). apply Qmult_le_compat_r; lra. }
  assert (H2 : 1 * D <= (1000 * a) * D) by (apply Qmult_le_compat_r; lra).
  assert (E1 : a * (1 + Qlen l * h) == a + a * (Qlen l * h)) by ring.
  assert (E2 : a * (1000 * D) == 1000 * a * D) by ring.
  lra.
Qed.

(** C5, amended.  A wind speed of at most 3 sets the deployment target to
    0, and when every frame lasts between [dmin] and [dmax] seconds, with
    [0 < dmin] and [dmax < 2.5], the deployment is exactly 0 after finitely
    many frames and remains 0; and in every frame whose deployment is below
    0.5 the target TSR is 0, whatever the torque, the autopilot and the
    runaway flag (the frame tests the clamped copy [depl], which is below
    0.5 exactly when the stored deployment is). *)
Theorem C5_grounding :
  (forall wind : Q, wind <= 3 -> targetDeployment wind == 0)
  /\ (forall (s : Sim) (dmin dmax : Q),
        envWindSpeed s <= 3 -> 0 < dmin -> dmax < 2.5 ->
        exists N : nat, forall dts : list Q,
          (N <= List.length dts)%nat ->
          Forall (fun dt => dmin <= dt <= dmax) dts ->
          deploymentRef (run s (frames dts)) == 0)
  /\ (forall (s : Sim) (dt : Q),
        frame_depl s dt < 0.5 -> frame_targetTSR s dt = 0)
  /\ (forall (s : Sim) (dt : Q),
        frame_depl s dt < 0.5 <-> deploymentRef (render s dt) < 0.5).
Proof.
  split; [exact targetDeployment_grounded|]. split; [|split].
  - intros s dmin dmax Hw Hmin Hmax.
    set (h := if Qlt_le_dec (0.8 * dmin) (2 - 0.8 * dmax)
              then 0.8 * dmin else 2 - 0.8 * dmax).
    assert (Hh : 0 < h /\ h <= 0.8 * dmin /\ 0.8 * dmax <= 2 - h).
    { subst h. destruct (Qlt_le_dec (0.8 * dmin) (2 - 0.8 * dmax)); lra. }
    destruct (grounded_frames_land h s (proj1 Hh) Hw) as [N HN].
    exists N. intros dts Hlen Hall. apply HN; [exact Hlen|].
    eapply Forall_impl; [|exact Hall]. cbv beta. intros dt Hdt. lra.
  - intros s dt Hd. unfold frame_targetTSR, frame_target, target_tsr.
    destruct (ltbP (frame_depl s dt) 0.5); [reflexivity|contradiction].
  - intros s dt. apply clamp_deployment_lt_half.
Qed.

Lemma C5_grounding_witness :
  targetDeployment 2 == 0
  /\ (exists N : nat, forall dts : list Q,
        (N <= List.length dts)%nat ->
        Forall (fun dt => 0.016 <= dt <= 0.1) dts ->
        deploymentRef (run becalmed (frames dts)) == 0)
  /\ frame_targetTSR grounded_runaway 0.016 = 0.
Proof.
  destruct C5_grounding as (Htarget & Hland & Hgate & _).
  split; [|split].
  - apply Htarget. qdecide.
  - apply Hland; qdecide.
  - apply Hgate. qdecide.
Defined.

(** ** C6: the projector *)

(** C6.  For every world point and camera pose: when the camera-space depth
    [zCam] is at least 0 the projection returns nothing; when it is
    negative the divisor [fov - zCam] is positive, the scale
    [k = fov / (fov - zCam)] lies strictly between 0 and 1, and the
    projection returns the viewport centre plus [(x * k, - y * k)], [x] and
    [y] being the camera-space coordinates, with depth [zCam]. *)
Theorem C6_projection (Math_cos Math_sin : Q -> Q) (cam : Camera)
    (p : Point3D) (width height : Q) :
  let x := cam_x Math_cos Math_sin cam p in
  let y := cam_y Math_cos Math_sin cam p in
  let z := zCam Math_cos Math_sin cam p in
  let k := fov / (fov - z) in
  (0 <= z -> worldToScreen Math_cos Math_sin cam p width height = None)
  /\ (z < 0 ->
      0 < fov - z /\ 0 < k < 1
      /\ worldToScreen Math_cos Math_sin cam p width height
         = Some {| scx := width / 2 + x * k;
                   scy := height / 2 - y * k;
                   scz := z |}).
Proof.
  intros x y z k.
  assert (E : worldToScreen Math_cos Math_sin cam p width height
              = if geb z 0 then None
                else Some {| scx := width / 2 + x * k;
                             scy := height / 2 - y * k;
                             scz := z |}) by reflexivity.
  rewrite E. unfold geb. split; intros Hz.
  - destruct (lebP 0 z); [reflexivity|contradiction].
  - assert (Hpos : 0 < fov - z) by (unfold fov; lra).
    split; [exact Hpos|]. split.
    + subst k. split.
      * apply Qlt_shift_div_l; [exact Hpos|]. unfold fov. lra.
      * apply Qlt_shift_div_r; [exact Hpos|]. unfold fov. lra.
    + destruct (lebP 0 z); [lra|reflexivity].
Qed.

Lemma C6_projection_witness :
  worldToScreen cos_near_0 sin_near_0 camera_ahead
    {| p3x := 0; p3y := 0; p3z := 1500 |} 800 600 = None
  /\ exists sp : ScreenPoint,
       worldToScreen cos_near_0 sin_near_0 camera_ahead
         {| p3x := 300; p3y := 150; p3z := 0 |} 800 600 = Some sp
       /\ scx sp == 600 /\ scy sp == 200 /\ scz sp == -1000.
Proof.
  split.
  - apply (C6_projection cos_near_0 sin_near_0 camera_ahead
             {| p3x := 0; p3y := 0; p3z := 1500 |} 800 600).
    qdecide.
  - destruct (C6_projection cos_near_0 sin_near_0 camera_ahead
                {| p3x := 300; p3y := 150; p3z := 0 |} 800 600)
      as [_ Hfront].
    destruct Hfront as (_ & _ & Hsome); [qdecide|].
    eexists. split; [exact Hsome|]. repeat split; qdecide.
Defined.

(** ** C7: power and TSR bounds *)

(** C7.  Start from any state whose inputs are within their bounds (wind
    0-25, torque 0-100, blade count 5-12, outer length 100-1500, inner
    length 0-800) and whose [tsr] is 0, let the component take any sequence
    of well-formed events, and run one more frame: afterwards [kw] is an
    integer within [[0, 30]] and [tsr] is not negative. *)
Theorem C7_power_and_tsr_bounds (s0 : Sim) (evs : list Event) (dt : Q) :
  inputs_in_range s0 -> tsr (physicsState s0) == 0 ->
  Forall well_formed evs ->
  let s := step (run s0 evs) (AnimationFrame dt) in
  is_integer (kw (physicsState s))
  /\ 0 <= kw (physicsState s) <= 30
  /\ 0 <= tsr (physicsState s).
Proof.
  intros Hin Htsr Hwf s.
  assert (HI : Inv (run s0 evs)).
  { apply run_Inv; [exact Hwf|]. split; [exact Hin|lra]. }
  subst s. cbn [step].
  destruct (kw_of_range (frame_currentTorque (run s0 evs))
              (rpm (physicsState (render (run s0 evs) dt)))
              (bladeCount (run s0 evs))) as [Hint Hrange].
  split; [exact Hint|]. split; [exact Hrange|].
  now apply render_tsr_nonneg.
Qed.

Lemma initialSim_in_range : inputs_in_range initialSim.
Proof. repeat split; qdecide. Defined.

Lemma C7_power_and_tsr_bounds_witness :
  let s := step (run initialSim
                   [WindSlider 25; TorqueSlider 100; AnimationFrame 0.016;
                    AutopilotButton; AnimationFrame 0.016; UiTimer])
             (AnimationFrame 0.016) in
  is_integer (kw (physicsState s))
  /\ 0 <= kw (physicsState s) <= 30
  /\ 0 <= tsr (physicsState s).
Proof.
  apply (C7_power_and_tsr_bounds initialSim).
  - exact initialSim_in_range.
  - reflexivity.
  - repeat constructor; qdecide.
Defined.

(** ** C8: range of the deployment state *)

(** C8, as stated, fails: under a wind of 0, a frame that comes 5 s after
    the previous one takes the stored deployment from 1 to -3. *)
Lemma C8_deployment_counterexample :
  0 <= 5 /\ 0 <= deploymentRef becalmed <= 1
  /\ deploymentRef (render becalmed 5) == -3
  /\ deploymentRef (render becalmed 5) < 0.
Proof. repeat split; qdecide. Qed.

Lemma step_deployment_range (s : Sim) (e : Event) :
  short_frame e -> 0 <= deploymentRef s <= 1 -> 0 <= deploymentRef (step s e) <= 1.
Proof.
  intros He Hd. destruct e; simpl in He; try exact Hd.
  - now apply deployment_update_range.
  - unfold step, torque_slider.
    destruct (isAutoPilot s || uiRunaway s || uiGrounded s); [exact Hd|].
    destruct (negb (isAutoPilot s)); exact Hd.
  - unfold step, autopilot_button.
    destruct (uiRunaway s || uiGrounded s); exact Hd.
Qed.

Lemma run_deployment_range (evs : list Event) (s : Sim) :
  Forall short_frame evs -> 0 <= deploymentRef s <= 1 ->
  0 <= deploymentRef (run s evs) <= 1.
Proof.
  unfold run. revert s.
  induction evs as [|e evs IH]; intros s Hall Hd; [exact Hd|].
  inversion Hall; subst. simpl. apply IH; [assumption|].
  now apply step_deployment_range.
Qed.

(** C8, amended.  The deployment target is 0 when the wind is at most 3 and
    1 otherwise.  A frame moves the stored deployment by
    [(target - state) * dt * 0.8] while it is more than 0.001 away from the
    target and sets it to the target otherwise.  For frames of at most
    1.25 s ([dt * 0.8 <= 1]) the stored deployment stays within [[0, 1]], in
    one frame and along every run of the component; for longer frames only
    the clamped copy [depl] that the frame computes with is within
    [[0, 1]]. *)
Theorem C8_deployment_range :
  (forall wind : Q,
     (wind <= 3 -> targetDeployment wind == 0)
     /\ (3 < wind -> targetDeployment wind == 1))
  /\ (forall (s : Sim) (dt : Q),
        let target := targetDeployment (envWindSpeed s) in
        (0.001 < Qabs (target - deploymentRef s) ->
           deploymentRef (render s dt)
           == deploymentRef s + (target - deploymentRef s) * dt * 0.8)
        /\ (Qabs (target - deploymentRef s) <= 0.001 ->
            deploymentRef (render s dt) = target))
  /\ (forall (s : Sim) (dt : Q),
        0 <= dt <= 1.25 -> 0 <= deploymentRef s <= 1 ->
        0 <= deploymentRef (render s dt) <= 1)
  /\ (forall evs : list Event,
        Forall short_frame evs -> 0 <= deploymentRef (run initialSim evs) <= 1)
  /\ (forall (s : Sim) (dt : Q), 0 <= frame_depl s dt <= 1).
Proof.
  split; [|split; [|split; [|split]]].
  - intros wind. split;
      [apply targetDeployment_grounded | apply targetDeployment_flying].
  - intros s dt target. split; intros Hgap.
    + now apply deployment_update_ease.
    + now apply deployment_update_snap.
  - intros s dt Hdt Hd. now apply deployment_update_range.
  - intros evs Hall. apply run_deployment_range; [exact Hall|].
    split; qdecide.
  - intros s dt. apply clamp_deployment_range.
Qed.

Lemma C8_deployment_range_witness :
  deploymentRef (render becalmed 1) == 0.2
  /\ 0 <= deploymentRef (render becalmed 1) <= 1
  /\ 0 <= deploymentRef
            (run initialSim [WindSlider 2; AnimationFrame 1; UiTimer;
                             AnimationFrame 0.5]) <= 1.
Proof.
  destruct C8_deployment_range as (_ & Hupdate & Hframe & Hrun & _).
  split; [|split].
  - destruct (Hupdate becalmed 1) as [Hease _].
    rewrite Hease; qdecide.
  - apply Hframe; split; qdecide.
  - apply Hrun. repeat constructor; qdecide.
Defined.

(** ** C9: autopilot while runaway or grounded *)

(** C9, as stated, fails: with the grounded flag up the autopilot is still
    on, and the next frame applies its correction (it computes with 39.545
    instead of the stored 48.2575 and eases the stored torque to 47.38625). *)
Lemma C9_autopilot_counterexample :
  uiGrounded grounded_on_autopilot = true
  /\ isAutoPilot grounded_on_autopilot = true
  /\ torque grounded_on_autopilot == 48.2575
  /\ frame_currentTorque grounded_on_autopilot == 39.545
  /\ torque (render grounded_on_autopilot 1) == 47.38625.
Proof. repeat split; qdecide. Qed.

(** C9, amended.  While the runaway flag or the grounded flag of the UI is
    true the autopilot button is disabled, so no event changes the
    autopilot setting: it keeps the value it had, on or off.  With both
    flags false the button toggles it.  A frame applies the autopilot's
    torque correction whenever the setting is on and the target is more
    than 0.5 away from the stored torque, whatever the runaway and grounded
    flags are. *)
Theorem C9_autopilot_latched (s : Sim) :
  (uiRunaway s || uiGrounded s = true ->
     forall e : Event, isAutoPilot (step s e) = isAutoPilot s)
  /\ (uiRunaway s = false -> uiGrounded s = false ->
      isAutoPilot (step s AutopilotButton) = negb (isAutoPilot s))
  /\ (isAutoPilot s = true ->
      let target :=
        autopilot_newTorque (torque s) (tsr (physicsState s)) (frame_optimal s) in
      0.5 < Qabs (target - torque s) ->
      forall dt : Q,
        frame_currentTorque s = target
        /\ torque (render s dt) == torque s + (target - torque s) * 0.1).
Proof.
  split; [|split].
  - intros Hflag e. destruct e; simpl; try reflexivity.
    + unfold torque_slider.
      destruct (isAutoPilot s || uiRunaway s || uiGrounded s); [reflexivity|].
      destruct (negb (isAutoPilot s)); reflexivity.
    + unfold autopilot_button. now rewrite Hflag.
  - intros Hr Hg. simpl. unfold autopilot_button. now rewrite Hr, Hg.
  - intros Hap target Hgap dt.
    change (torque (render s dt)) with (snd (frame_torque s)).
    unfold frame_currentTorque, frame_torque, torque_control.
    rewrite Hap. fold target. unfold gtb, Math_abs.
    destruct (ltbP 0.5 (Qabs (target - torque s))); [|contradiction].
    split; reflexivity.
Qed.

Lemma C9_autopilot_latched_witness :
  isAutoPilot (step grounded_on_autopilot AutopilotButton) = true
  /\ isAutoPilot (step initialSim AutopilotButton) = true
  /\ torque (render grounded_on_autopilot 1) == 47.38625.
Proof.
  split; [|split].
  - destruct (C9_autopilot_latched grounded_on_autopilot) as (Hkeep & _).
    now rewrite Hkeep.
  - destruct (C9_autopilot_latched initialSim) as (_ & Htoggle & _).
    now rewrite Htoggle.
  - destruct (C9_autopilot_latched grounded_on_autopilot) as (_ & _ & Hfix).
    destruct (Hfix eq_refl) with (dt := 1) as [_ Hstored]; [qdecide|].
    rewrite Hstored. qdecide.
Defined.

(** * Further properties of the frame *)

(** ** Brake ratio *)

Lemma safeRequired_floor (wind : Q) :
  1 <= Math_max 1 (requiredTorqueForOptimal wind).
Proof. apply Math_max_lower. Qed.

Lemma brakeRatio_range (wind currentTorque : Q) :
  0 <= currentTorque -> 0 <= brakeRatio wind currentTorque <= currentTorque.
Proof.
  intros Ht. unfold brakeRatio.
  pose proof (safeRequired_floor wind) as Hfloor.
  set (safe := Math_max 1 (requiredTorqueForOptimal wind)) in *.
  assert (Hpos : 0 < safe) by lra.
  split.
  - apply Qle_shift_div_l; [exact Hpos|]. lra.
  - apply Qle_shift_div_r; [exact Hpos|].
    assert (E : currentTorque * safe == currentTorque + currentTorque * (safe - 1))
      by ring.
    assert (0 <= currentTorque * (safe - 1)) by (apply Qmult_le_0_compat; lra).
    lra.
Qed.

Lemma requiredTorque_low_wind (wind : Q) :
  0 <= wind <= 1.2 -> requiredTorqueForOptimal wind <= 1.
Proof.
  intros Hw. unfold requiredTorqueForOptimal, Math_max.
  destruct (ltbP 0.1 wind); inv_literals.
  - assert (E : (wind * (1 # 12)) ^ 2 * 100 == wind * wind * (100 # 144))
      by (simpl; ring).
    rewrite E. nra.
  - qdecide.
Qed.

(** X1.  The divisor of the brake ratio is floored at 1: for a torque that
    is not negative the brake ratio lies between 0 and that torque, and for
    winds of at most 1.2 m/s, where the quadratic load curve is below 1, it
    is the torque itself. *)
Theorem X1_brakeRatio_floor (wind currentTorque : Q) :
  0 <= currentTorque ->
  0 <= brakeRatio wind currentTorque <= currentTorque
  /\ (0 <= wind <= 1.2 -> brakeRatio wind currentTorque == currentTorque).
Proof.
  intros Ht. split; [now apply brakeRatio_range|].
  intros Hw. pose proof (requiredTorque_low_wind wind Hw) as Hreq.
  unfold brakeRatio.
  assert (Esafe : Math_max 1 (requiredTorqueForOptimal wind) == 1).
  { unfold Math_max.
    destruct (ltbP 1 (requiredTorqueForOptimal wind)); lra. }
  rewrite Esafe. field.
Qed.

Lemma X1_brakeRatio_floor_witness :
  0 <= brakeRatio 1 50 <= 50 /\ brakeRatio 1 50 == 50.
Proof.
  assert (Ht : 0 <= 50) by qdecide.
  destruct (X1_brakeRatio_floor 1 50 Ht) as [Hrange Hlow].
  split; [exact Hrange|]. apply Hlow. split; qdecide.
Defined.

(** ** Upper bound of the tip-speed ratio *)

Lemma optimalTSR_upper (bc lo li : Q) :
  5 <= bc -> lo <= 1500 -> 0 <= li -> currentOptimalTSR bc lo li <= 4.974.
Proof.
  intros Hbc Hlo Hli.
  unfold currentOptimalTSR, bladeCountFactor, hollowFactor, lengthFactor.
  inv_literals. lra.
Qed.

Lemma target_tsr_upper (depl wind optimal maxTsr ratio kw : Q) (runaway : bool) :
  0 <= optimal <= 4.974 -> maxTsr == optimal + 2 -> 0 <= ratio ->
  fst (target_tsr depl wind optimal maxTsr ratio kw runaway) <= 6.974.
Proof.
  intros Hopt Hmax Hratio. unfold target_tsr.
  destruct (ltbP depl 0.5); [simpl; lra|].
  destruct runaway.
  - destruct (lebP wind 18); simpl; lra.
  - unfold geb. destruct (lebP 1.0 ratio); simpl.
    + unfold Math_max.
      destruct (ltbP 0 (optimal - (ratio - 1.0) * 2.0)); lra.
    + rewrite Hmax. lra.
Qed.

Lemma frame_targetTSR_upper (s : Sim) (dt : Q) :
  Inv s -> frame_targetTSR s dt <= 6.974.
Proof.
  intros [(Hw & Ht & [Hbc5 Hbc] & [Hlo Hlo'] & [Hli Hli']) Htsr].
  unfold frame_targetTSR, frame_target.
  apply target_tsr_upper.
  - split.
    + pose proof (optimalTSR_positive _ _ _ Hbc Hlo Hli'). unfold frame_optimal. lra.
    + now apply optimalTSR_upper.
  - apply maxTSR_minus_optimal.
  - destruct (torque_control_range (isAutoPilot s) (torque s)
                (tsr (physicsState s)) (frame_optimal s) Ht) as [[Hc _] _].
    now apply brakeRatio_range.
Qed.

Lemma step_tsr_upper (s : Sim) (e : Event) :
  Inv s -> tsr (physicsState s) <= 6.974 ->
  tsr (physicsState (step s e)) <= 6.974.
Proof.
  intros HI Hb. destruct e; simpl; try exact Hb.
  - pose proof (frame_targetTSR_upper s dt HI). unfold inertia. lra.
  - unfold torque_slider.
    destruct (isAutoPilot s || uiRunaway s || uiGrounded s); [exact Hb|].
    destruct (negb (isAutoPilot s)); exact Hb.
  - unfold autopilot_button. destruct (uiRunaway s || uiGrounded s); exact Hb.
Qed.

(** X2.  From a state whose inputs are within their bounds and whose [tsr]
    is between 0 and 6.974, every sequence of well-formed events keeps
    [tsr] between 0 and 6.974, the largest value the maximal TSR can take
    (5 blades, solid inner blade, outer length 1500). *)
Theorem X2_tsr_bounded (evs : list Event) (s0 : Sim) :
  inputs_in_range s0 -> 0 <= tsr (physicsState s0) <= 6.974 ->
  Forall well_formed evs ->
  0 <= tsr (physicsState (run s0 evs)) <= 6.974.
Proof.
  intros Hin [Hlo Hhi] Hwf.
  assert (HI : Inv s0) by (split; assumption).
  clear Hin Hlo. revert s0 HI Hhi.
  induction Hwf as [|e evs He Hwf IH]; intros s0 HI Hhi.
  - split; [apply HI|exact Hhi].
  - change (run s0 (e :: evs)) with (run (step s0 e) evs).
    apply IH; [now apply step_Inv|now apply step_tsr_upper].
Qed.

Lemma X2_tsr_bounded_witness :
  0 <= tsr (physicsState
              (run initialSim
                 [WindSlider 25; TorqueSlider 0; AnimationFrame 0.016;
                  BladeCountSlider 5; AnimationFrame 0.016])) <= 6.974.
Proof.
  apply X2_tsr_bounded.
  - exact initialSim_in_range.
  - split; qdecide.
  - repeat constructor; qdecide.
Defined.

(** ** The runaway latch along runs *)

Lemma render_keeps_runaway (s : Sim) (dt : Q) :
  isRunaway (physicsState s) = true -> 18 < envWindSpeed s ->
  isRunaway (physicsState (render s dt)) = true.
Proof.
  intros Hr Hw.
  change (isRunaway (physicsState (render s dt))) with (snd (frame_target s dt)).
  unfold frame_target, target_tsr. rewrite Hr.
  destruct (ltbP (frame_depl s dt) 0.5); [reflexivity|].
  destruct (lebP (envWindSpeed s) 18); [lra|reflexivity].
Qed.

(** X3.  Once the runaway flag is set it stays set for as long as the wind
    stays above 18: along every run of events whose wind settings are above
    18, whatever the frame durations, the deployment, the torque and the
    autopilot do. *)
Theorem X3_runaway_latched (evs : list Event) (s : Sim) :
  isRunaway (physicsState s) = true -> 18 < envWindSpeed s ->
  Forall (wind_above 18) evs ->
  isRunaway (physicsState (run s evs)) = true /\ 18 < envWindSpeed (run s evs).
Proof.
  intros Hr Hw Hall. revert s Hr Hw.
  induction Hall as [|e evs He Hall IH]; intros s Hr Hw; [now split|].
  change (run s (e :: evs)) with (run (step s e) evs).
  apply IH; destruct e; simpl in *; try assumption.
  - now apply render_keeps_runaway.
  - unfold torque_slider.
    destruct (isAutoPilot s || uiRunaway s || uiGrounded s); [exact Hr|].
    destruct (negb (isAutoPilot s)); exact Hr.
  - unfold autopilot_button. destruct (uiRunaway s || uiGrounded s); exact Hr.
  - unfold parseInt. change 18 with (inject_Z 18). now rewrite <- Zlt_Qlt.
  - unfold torque_slider.
    destruct (isAutoPilot s || uiRunaway s || uiGrounded s); [exact Hw|].
    destruct (negb (isAutoPilot s)); exact Hw.
  - unfold autopilot_button. destruct (uiRunaway s || uiGrounded s); exact Hw.
Qed.

Lemma X3_runaway_latched_witness :
  isRunaway (physicsState
               (run runaway_gale
                  [TorqueSlider 100; AnimationFrame 0.016; WindSlider 19;
                   AnimationFrame 30; UiTimer])) = true
  /\ 18 < envWindSpeed
            (run runaway_gale
               [TorqueSlider 100; AnimationFrame 0.016; WindSlider 19;
                AnimationFrame 30; UiTimer]).
Proof.
  apply X3_runaway_latched; [reflexivity|qdecide|].
  repeat constructor.
Defined.

Lemma grounded_update_stays_low (wind dt d : Q) :
  wind <= 3 -> 0 <= dt <= 1.25 -> d < 0.5 -> deployment_update wind dt d < 0.5.
Proof.
  intros Hw Hdt Hd.
  pose proof (targetDeployment_grounded wind Hw) as Et.
  destruct (Qlt_le_dec 0.001 (Qabs (targetDeployment wind - d))) as [Hfar | Hnear].
  - rewrite (deployment_update_ease _ _ _ Hfar), Et.
    destruct (Qlt_le_dec d 0) as [Hneg | Hpos]; nra.
  - rewrite (deployment_update_snap _ _ _ Hnear), Et. lra.
Qed.

(** X4.  The deployment gate freezes the runaway flag: a rotor that is
    retrieved (deployment below 0.5) with the flag set keeps it set through
    every run of frames of at most 1.25 s and wind settings of at most 3,
    although the wind is far below 18; each UI sample then reports the
    runaway flag, and the autopilot button stays disabled. *)
Theorem X4_runaway_survives_grounding (evs : list Event) (s : Sim) :
  isRunaway (physicsState s) = true -> envWindSpeed s <= 3 ->
  deploymentRef s < 0.5 -> Forall calm_event evs ->
  let s' := run s evs in
  isRunaway (physicsState s') = true
  /\ deploymentRef s' < 0.5
  /\ uiRunaway (uiInterval s') = true
  /\ uiStatus (uiInterval s') = "GROUNDED"%string
  /\ autopilot_button (uiInterval s') = uiInterval s'.
Proof.
  intros Hr Hw Hd Hall.
  assert (Hrun : isRunaway (physicsState (run s evs)) = true
                 /\ envWindSpeed (run s evs) <= 3
                 /\ deploymentRef (run s evs) < 0.5).
  { revert s Hr Hw Hd.
    induction Hall as [|e evs He Hall IH]; intros s Hr Hw Hd; [now repeat split|].
    change (run s (e :: evs)) with (run (step s e) evs).
    assert (Hstep : isRunaway (physicsState (step s e)) = true
                    /\ envWindSpeed (step s e) <= 3
                    /\ deploymentRef (step s e) < 0.5).
    { destruct e; simpl in *; try (now repeat split).
      - pose proof (grounded_update_stays_low _ dt _ Hw He Hd) as Hlow.
        split; [|split; [exact Hw|exact Hlow]].
        change (isRunaway (physicsState (render s dt)))
          with (snd (frame_target s dt)).
        unfold frame_target, target_tsr.
        destruct (ltbP (frame_depl s dt) 0.5) as [_ | Hup]; [exact Hr|].
        exfalso. apply Hup. apply clamp_deployment_lt_half. exact Hlow.
      - split; [exact Hr|]. split; [|exact Hd].
        unfold parseInt. change 3 with (inject_Z 3). rewrite <- Zle_Qle. exact He.
      - unfold torque_slider.
        destruct (isAutoPilot s || uiRunaway s || uiGrounded s); [now repeat split|].
        destruct (negb (isAutoPilot s)); now repeat split.
      - unfold autopilot_button.
        destruct (uiRunaway s || uiGrounded s); now repeat split. }
    destruct Hstep as (H1 & H2 & H3). now apply IH. }
  destruct Hrun as (Hr' & Hw' & Hd').
  cbv zeta. repeat split; try assumption.
  - cbn [uiInterval uiStatus]. unfold sample_status, classify_status.
    destruct (ltbP (deploymentRef (run s evs)) 0.5); [reflexivity|contradiction].
  - unfold autopilot_button. cbn [uiInterval uiRunaway]. now rewrite Hr'.
Qed.

Lemma X4_runaway_survives_grounding_witness :
  let s' := run grounded_runaway
              [AnimationFrame 0.016; UiTimer; WindSlider 0; AnimationFrame 1] in
  isRunaway (physicsState s') = true
  /\ deploymentRef s' < 0.5
  /\ uiRunaway (uiInterval s') = true
  /\ uiStatus (uiInterval s') = "GROUNDED"%string
  /\ autopilot_button (uiInterval s') = uiInterval s'.
Proof.
  apply X4_runaway_survives_grounding; [reflexivity|qdecide|qdecide|].
  repeat constructor; qdecide.
Defined.

(** ** Speed, power and rotation *)

Lemma circumference_positive (lo : Q) :
  0 <= lo -> 0 < 2 * Math_PI * ((ROTOR_RADIUS_SCALE + lo) / 100).
Proof.
  intros Hlo. unfold ROTOR_RADIUS_SCALE, Math_PI. inv_literals. lra.
Qed.

Lemma rpm_of_nonneg (tsr wind lo : Q) :
  0 <= tsr -> 0 <= wind -> 0 <= lo -> 0 <= rpm_of tsr wind lo.
Proof.
  intros Ht Hw Hlo. unfold rpm_of.
  apply Qle_shift_div_l; [now apply circumference_positive|].
  assert (0 <= tsr * wind) by (now apply Qmult_le_0_compat). lra.
Qed.

Lemma render_rpm_nonneg (s : Sim) (dt : Q) :
  Inv s -> 0 <= rpm (physicsState (render s dt)).
Proof.
  intros HI. pose proof (render_tsr_nonneg s dt HI) as Ht.
  destruct HI as [(Hw & _ & _ & Hlo & _) _].
  cbn [render physicsState rpm]. apply rpm_of_nonneg; [exact Ht|lra|lra].
Qed.

Lemma kw_of_zero (currentTorque rpm bc : Q) :
  (currentTorque / 100) * (rpm / 32) * 30 * (1 + ((bc - 6) * 0.1)) == 0 ->
  kw_of currentTorque rpm bc == 0.
Proof.
  intros E. unfold kw_of, Math_floor. rewrite (Qfloor_comp _ _ E). reflexivity.
Qed.

(** X5.  After every frame of a state within bounds the rotor speed is not
    negative; in still air (wind 0) the frame leaves [rpm] and [kw] at 0,
    and a frame that computes with torque 0 leaves [kw] at 0 whatever the
    wind. *)
Theorem X5_speed_and_power_zero (s : Sim) (dt : Q) :
  Inv s ->
  0 <= rpm (physicsState (render s dt))
  /\ (envWindSpeed s == 0 ->
      rpm (physicsState (render s dt)) == 0
      /\ kw (physicsState (render s dt)) == 0)
  /\ (frame_currentTorque s == 0 -> kw (physicsState (render s dt)) == 0).
Proof.
  intros HI. split; [now apply render_rpm_nonneg|].
  cbn [render physicsState rpm kw]. split.
  - intros Hw.
    assert (Erpm : rpm_of (tsr (physicsState s)
                           + (frame_targetTSR s dt - tsr (physicsState s)) * inertia)
                     (envWindSpeed s) (bladeLengthOut s) == 0).
    { unfold rpm_of. rewrite Hw. unfold Qdiv. ring. }
    split; [exact Erpm|].
    apply kw_of_zero. rewrite Erpm. inv_literals. ring.
  - intros Ht. apply kw_of_zero. rewrite Ht. inv_literals. ring.
Qed.

Lemma X5_speed_and_power_zero_witness :
  rpm (physicsState (render becalmed 0.016)) == 0
  /\ kw (physicsState (render becalmed 0.016)) == 0.
Proof.
  assert (HI : Inv becalmed).
  { split; [repeat split; qdecide|qdecide]. }
  destruct (X5_speed_and_power_zero becalmed 0.016 HI) as (_ & Hstill & _).
  apply Hstill. reflexivity.
Defined.

(** X6.  The rotor turns one way only: as time does not run backwards, a
    frame of a state within bounds never increases the rotation angle. *)
Theorem X6_rotation_one_way (s : Sim) (dt : Q) :
  Inv s -> 0 <= dt -> rotationRef (render s dt) <= rotationRef s.
Proof.
  intros HI Hdt. pose proof (render_rpm_nonneg s dt HI) as Hrpm.
  cbn [render rotationRef physicsState rpm] in *.
  set (r := rpm_of _ _ _) in *.
  assert (Hrad : 0 <= r / 60 * 2 * Math_PI).
  { unfold Math_PI. inv_literals. lra. }
  assert (0 <= r / 60 * 2 * Math_PI * dt) by (now apply Qmult_le_0_compat).
  lra.
Qed.

Lemma X6_rotation_one_way_witness :
  rotationRef (render initialSim 0.016) <= rotationRef initialSim.
Proof.
  apply X6_rotation_one_way; [|qdecide].
  split; [exact initialSim_in_range|qdecide].
Defined.

(** ** Autopilot *)

(** X7.  With the autopilot on no frame raises the compression-risk flag:
    the frame computes either with the clamped target, at most 80, or with
    a stored torque within 0.5 of it, and the flag needs more than 85. *)
Theorem X7_autopilot_no_compression_risk (s : Sim) (dt : Q) :
  isAutoPilot s = true ->
  frame_currentTorque s <= 80.5
  /\ compressionRisk (physicsState (render s dt)) = false.
Proof.
  intros Hap.
  assert (Hc : frame_currentTorque s <= 80.5).
  { unfold frame_currentTorque, frame_torque, torque_control. rewrite Hap.
    pose proof (autopilot_newTorque_range (torque s) (tsr (physicsState s))
                  (frame_optimal s)) as Hn.
    set (nt := autopilot_newTorque _ _ _) in *.
    unfold gtb, Math_abs.
    destruct (ltbP 0.5 (Qabs (nt - torque s))) as [Hfar | Hnear]; cbn [fst].
    - lra.
    - destruct (Qabs_cases (nt - torque s)) as [[? ?] | [? ?]]; lra. }
  split; [exact Hc|].
  cbn [render physicsState compressionRisk]. unfold gtb.
  destruct (ltbP 85 (frame_currentTorque s)); [lra|reflexivity].
Qed.

(** Autopilot engaged on top of a full manual torque, in a gale. *)
Lemma X7_autopilot_no_compression_risk_witness :
  compressionRisk
    (physicsState
       (render (run initialSim [TorqueSlider 100; WindSlider 20; AutopilotButton])
          0.016)) = false.
Proof.
  apply (X7_autopilot_no_compression_risk
           (run initialSim [TorqueSlider 100; WindSlider 20; AutopilotButton])).
  reflexivity.
Defined.

(** X8.  The autopilot has a dead band: with the stored torque between 0
    and 80 and [tsr] within 0.25 of the optimal TSR, a frame neither
    changes the stored torque nor computes with another one. *)
Theorem X8_autopilot_dead_band (s : Sim) (dt : Q) :
  isAutoPilot s = true -> 0 <= torque s <= 80 ->
  -0.25 <= tsr (physicsState s) - frame_optimal s <= 0.25 ->
  torque (render s dt) = torque s /\ frame_currentTorque s = torque s.
Proof.
  intros Hap Ht He.
  change (torque (render s dt)) with (snd (frame_torque s)).
  unfold frame_currentTorque, frame_torque, torque_control. rewrite Hap.
  unfold gtb, Math_abs.
  destruct (ltbP 0.5 (Qabs (autopilot_newTorque (torque s) (tsr (physicsState s))
                              (frame_optimal s) - torque s))) as [Hfar | Hnear];
    [exfalso|split; reflexivity].
  revert Hfar.
  unfold autopilot_newTorque, Math_max, Math_min, MAX_SAFE_TORQUE.
  set (e := tsr (physicsState s) - frame_optimal s) in *.
  js_split; intros Hfar;
    match type of Hfar with
    | _ < Qabs ?x => destruct (Qabs_cases x) as [[? ?] | [? ?]]
    end; lra.
Qed.

Lemma X8_autopilot_dead_band_witness :
  torque (render cruising_on_autopilot 0.016) = 50
  /\ frame_currentTorque cruising_on_autopilot = 50.
Proof.
  apply (X8_autopilot_dead_band cruising_on_autopilot 0.016);
    [reflexivity|split; qdecide|split; qdecide].
Defined.

(** ** Risk flag and status *)

(** X9.  The overspeed-risk flag implies the OVERSPEED status: when a frame
    of a state within bounds raises the flag ([tsr] above 1.3 times the
    optimal TSR) and leaves the rotor deployed and out of runaway under a
    wind above 3, the next UI sample reports OVERSPEED. *)
Theorem X9_overspeed_risk_status (s : Sim) (dt : Q) :
  Inv s -> 3 < envWindSpeed s ->
  overspeedRisk (physicsState (render s dt)) = true ->
  0.5 <= deploymentRef (render s dt) ->
  isRunaway (physicsState (render s dt)) = false ->
  uiStatus (uiInterval (render s dt)) = "OVERSPEED"%string.
Proof.
  intros HI Hw Hrisk Hd Hr.
  assert (Hopt : 2 < frame_optimal s).
  { destruct HI as [(_ & _ & [_ Hbc] & [Hlo _] & [_ Hli]) _].
    now apply optimalTSR_positive. }
  cbn [uiInterval uiStatus]. unfold sample_status. rewrite Hr.
  change (envWindSpeed (render s dt)) with (envWindSpeed s).
  change (optimalTsr (physicsState (render s dt))) with (frame_optimal s).
  cbn [render physicsState overspeedRisk] in Hrisk.
  set (t := tsr (physicsState (render s dt))) in *.
  change (tsr (physicsState s)
          + (frame_targetTSR s dt - tsr (physicsState s)) * inertia)
    with t in Hrisk.
  unfold classify_status, gtb in *.
  destruct (ltbP (frame_optimal s * 1.3) t) as [Hfast | ]; [|discriminate].
  destruct (ltbP (deploymentRef (render s dt)) 0.5); [lra|].
  destruct (lebP (envWindSpeed s) 3); [lra|].
  destruct (ltbP t (frame_optimal s * 0.6)); [lra|].
  destruct (ltbP (frame_optimal s * 1.25) t); [reflexivity|lra].
Qed.

Lemma X9_overspeed_risk_status_witness :
  uiStatus (uiInterval (render freewheeling 0.016)) = "OVERSPEED"%string.
Proof.
  apply X9_overspeed_risk_status.
  - split; [repeat split; qdecide|qdecide].
  - qdecide.
  - vm_compute. reflexivity.
  - qdecide.
  - vm_compute. reflexivity.
Defined.

(** ** Who may change the torque *)

(** X10.  While the autopilot is on, or the UI's runaway or grounded flag is
    up, no event but a frame changes the stored torque: the torque slider
    is ignored.  With all three off the slider sets it. *)
Theorem X10_manual_torque_locked (s : Sim) :
  (isAutoPilot s || uiRunaway s || uiGrounded s = true ->
     forall e : Event, not_a_frame e -> torque (step s e) = torque s)
  /\ (isAutoPilot s || uiRunaway s || uiGrounded s = false ->
      forall v : Z, torque (step s (TorqueSlider v)) = parseInt v).
Proof.
  split.
  - intros Hlock e He. destruct e; simpl in *; try reflexivity.
    + contradiction.
    + unfold torque_slider. now rewrite Hlock.
    + unfold autopilot_button. destruct (uiRunaway s || uiGrounded s); reflexivity.
  - intros Hfree v. simpl. unfold torque_slider. rewrite Hfree.
    apply orb_false_iff in Hfree as [Hfree _].
    apply orb_false_iff in Hfree as [Hap _]. now rewrite Hap.
Qed.

Lemma X10_manual_torque_locked_witness :
  torque (step grounded_on_autopilot (TorqueSlider 10)) = torque grounded_on_autopilot
  /\ torque (step initialSim (TorqueSlider 10)) = parseInt 10.
Proof.
  split.
  - destruct (X10_manual_torque_locked grounded_on_autopilot) as [Hlock _].
    apply Hlock; [reflexivity|exact I].
  - destruct (X10_manual_torque_locked initialSim) as [_ Hfree].
    apply Hfree. reflexivity.
Defined.

(** ** Deployment: approach to either target *)

(** X11.  A frame of at most 1.25 s moves the stored deployment toward its
    target and never past it: the new value lies between the old one and
    the target, wherever the old one was. *)
Theorem X11_deployment_no_overshoot (wind dt d : Q) :
  0 <= dt <= 1.25 ->
  let target := targetDeployment wind in
  (d <= target -> d <= deployment_update wind dt d <= target)
  /\ (target <= d -> target <= deployment_update wind dt d <= d).
Proof.
  intros Hdt target.
  destruct (Qlt_le_dec 0.001 (Qabs (target - d))) as [Hfar | Hnear].
  - rewrite (deployment_update_ease _ _ _ Hfar). fold target.
    split; intros Hside; nra.
  - rewrite (deployment_update_snap _ _ _ Hnear). fold target.
    split; intros Hside; lra.
Qed.

Lemma X11_deployment_no_overshoot_witness :
  0 <= deployment_update 0 1 (3 # 2) <= 3 # 2
  /\ -2 <= deployment_update 12 (1 # 2) (-2) <= 1.
Proof.
  split.
  - destruct (X11_deployment_no_overshoot 0 1 (3 # 2)) as [_ Hdown];
      [split; qdecide|].
    apply Hdown. qdecide.
  - destruct (X11_deployment_no_overshoot 12 (1 # 2) (-2)) as [Hup _];
      [split; qdecide|].
    apply Hup. qdecide.
Defined.

Lemma deployment_update_contracts_to_target (wind dt d h : Q) :
  h <= 0.8 * dt <= 2 - h ->
  Qabs (deployment_update wind dt d - targetDeployment wind)
  <= (1 - h) * Qabs (d - targetDeployment wind).
Proof.
  intros Hdt. set (T := targetDeployment wind).
  destruct (Qlt_le_dec 0.001 (Qabs (T - d))) as [Hfar | Hnear].
  - rewrite (deployment_update_ease _ _ _ Hfar). fold T.
    destruct (Qabs_cases (d - T)) as [[Hd Ed] | [Hd Ed]];
      destruct (Qabs_cases (d + (T - d) * dt * 0.8 - T)) as [[Hu Eu] | [Hu Eu]];
      rewrite Ed, Eu; nra.
  - rewrite (deployment_update_snap _ _ _ Hnear). fold T.
    pose proof (Qabs_nonneg (d - T)) as Hn.
    assert (E : Qabs (T - T) == 0).
    { destruct (Qabs_cases (T - T)) as [[? ?] | [? ?]]; lra. }
    rewrite E. nra.
Qed.

Lemma deployment_update_reaches_target (wind dt d : Q) :
  Qabs (d - targetDeployment wind) <= 0.001 ->
  deployment_update wind dt d = targetDeployment wind.
Proof.
  intros Hd. apply deployment_update_snap.
  destruct (Qabs_cases (d - targetDeployment wind)) as [[? ?] | [? ?]];
    destruct (Qabs_cases (targetDeployment wind - d)) as [[? ?] | [? ?]]; lra.
Qed.

Lemma run_frames_target_bound (h : Q) (dts : list Q) (s : Sim) :
  0 < h ->
  Forall (fun dt => h <= 0.8 * dt <= 2 - h) dts ->
  Qabs (deploymentRef (run s (frames dts)) - targetDeployment (envWindSpeed s))
  * (1 + Qlen dts * h)
  <= Qabs (deploymentRef s - targetDeployment (envWindSpeed s)).
Proof.
  intros Hh. revert s.
  induction dts as [|dt dts IH]; intros s Hall.
  - change (run s (frames [])) with s. change (Qlen (@nil Q)) with 0. lra.
  - inversion Hall as [|? ? Hdt Hrest]; subst.
    change (run s (frames (dt :: dts))) with (run (render s dt) (frames dts)).
    specialize (IH (render s dt) Hrest).
    change (envWindSpeed (render s dt)) with (envWindSpeed s) in IH.
    pose proof (deployment_update_contracts_to_target
                  (envWindSpeed s) dt (deploymentRef s) h Hdt) as Hc.
    change (deployment_update (envWindSpeed s) dt (deploymentRef s))
      with (deploymentRef (render s dt)) in Hc.
    rewrite Qlen_cons.
    pose proof (Qlen_nonneg dts) as Hn.
    set (T := targetDeployment (envWindSpeed s)) in *.
    pose proof (Qabs_nonneg (deploymentRef (run (render s dt) (frames dts)) - T)) as Ha.
    pose proof (Qabs_nonneg (deploymentRef s - T)) as H0.
    set (a := Qabs (deploymentRef (run (render s dt) (frames dts)) - T)) in *.
    set (d1 := Qabs (deploymentRef (render s dt) - T)) in *.
    set (d0 := Qabs (deploymentRef s - T)) in *.
    set (n := Qlen dts) in *.
    assert (Hnh : 0 <= a * (n * h)).
    { apply Qmult_le_0_compat; [exact Ha|]. apply Qmult_le_0_compat; lra. }
    assert (Hh1 : h <= 1) by lra.
    assert (Hhd : 0 <= h * d0) by (apply Qmult_le_0_compat; lra).
    assert (E1 : a * (1 + n * h) == a + a * (n * h)) by ring.
    assert (E2 : (1 - h) * d0 == d0 - h * d0) by ring.
    assert (Had : a <= d0) by lra.
    assert (Hah : a * h <= d0 * h) by (apply Qmult_le_compat_r; lra).
    assert (E3 : a * (1 + (n + 1) * h) == a * (1 + n * h) + a * h) by ring.
    assert (E4 : d0 * h == h * d0) by ring.
    lra.
Qed.

Lemma frames_reach_target (h : Q) (s : Sim) :
  0 < h ->
  exists N : nat, forall dts : list Q,
    (N <= List.length dts)%nat ->
    Forall (fun dt => h <= 0.8 * dt <= 2 - h) dts ->
    deploymentRef (run s (frames dts)) = targetDeployment (envWindSpeed s).
Proof.
  intros Hh.
  set (T := targetDeployment (envWindSpeed s)).
  set (D := Qabs (deploymentRef s - T)).
  set (N0 := Z.to_nat (Qceiling (1000 * D / h))).
  exists (S N0). intros dts Hlen Hall.
  destruct (exists_last (l := dts)) as (l & x & ->).
  { intros ->. simpl in Hlen. lia. }
  apply Forall_app in Hall as [Hl Hx].
  unfold frames. rewrite map_app, run_app. fold (frames l).
  change (run (run s (frames l)) (map AnimationFrame [x]))
    with (render (run s (frames l)) x).
  change (deploymentRef (render (run s (frames l)) x))
    with (deployment_update (envWindSpeed (run s (frames l))) x
            (deploymentRef (run s (frames l)))).
  rewrite run_frames_wind. fold T.
  apply deployment_update_reaches_target. fold T.
  pose proof (run_frames_target_bound h l s Hh Hl) as Hb.
  fold T in Hb. fold D in Hb.
  pose proof (Qabs_nonneg (deploymentRef s - T)) as HD. fold D in HD.
  pose proof (Qabs_nonneg (deploymentRef (run s (frames l)) - T)) as Ha.
  set (a := Qabs (deploymentRef (run s (frames l)) - T)) in *.
  assert (Hm : 1000 * D <= Qlen l * h).
  { assert (Hc : 1000 * D / h <= Qlen l).
    { apply Qle_trans with (inject_Z (Qceiling (1000 * D / h)));
        [apply Qle_ceiling|].
      unfold Qlen. rewrite <- Zle_Qle.
      rewrite length_app in Hlen. simpl in Hlen. subst N0. lia. }
    assert (E : 1000 * D == 1000 * D / h * h) by (field; lra).
    rewrite E. apply Qmult_le_compat_r; lra. }
  destruct (Qlt_le_dec 0.001 a) as [Hbig | Hsmall]; [exfalso|exact Hsmall].
  assert (H1 : a * (1000 * D) <= a * (Qlen l * h)).
  { rewrite !(Qmult_comm a). apply Qmult_le_compat_r; lra. }
  assert (H2 : 1 * D <= (1000 * a) * D) by (apply Qmult_le_compat_r; lra).
  assert (E1 : a * (1 + Qlen l * h) == a + a * (Qlen l * h)) by ring.
  assert (E2 : a * (1000 * D) == 1000 * a * D) by ring.
  lra.
Qed.

(** X12.  Launch: under a wind above 3, when every frame lasts between
    [dmin] and [dmax] seconds with [0 < dmin] and [dmax < 2.5], the stored
    deployment is exactly 1 after finitely many frames and remains 1,
    wherever it started; the grounded flag of the next UI sample is then
    down and the frame's deployment gate is open. *)
Theorem X12_launch_completes (s : Sim) (dmin dmax : Q) :
  3 < envWindSpeed s -> 0 < dmin -> dmax < 2.5 ->
  exists N : nat, forall dts : list Q,
    (N <= List.length dts)%nat ->
    Forall (fun dt => dmin <= dt <= dmax) dts ->
    let s' := run s (frames dts) in
    deploymentRef s' == 1
    /\ uiGrounded (uiInterval s') = false
    /\ clamp_deployment (deploymentRef s') == 1.
Proof.
  intros Hw Hmin Hmax.
  set (h := if Qlt_le_dec (0.8 * dmin) (2 - 0.8 * dmax)
            then 0.8 * dmin else 2 - 0.8 * dmax).
  assert (Hh : 0 < h /\ h <= 0.8 * dmin /\ 0.8 * dmax <= 2 - h).
  { subst h. destruct (Qlt_le_dec (0.8 * dmin) (2 - 0.8 * dmax)); lra. }
  destruct (frames_reach_target h s (proj1 Hh)) as [N HN].
  exists N. intros dts Hlen Hall s'.
  assert (E : deploymentRef s' = targetDeployment (envWindSpeed s)).
  { apply HN; [exact Hlen|].
    eapply Forall_impl; [|exact Hall]. cbv beta. intros dt Hdt. lra. }
  pose proof (targetDeployment_flying _ Hw) as Efly.
  assert (E1 : deploymentRef s' == 1) by (rewrite E; exact Efly).
  split; [exact E1|]. split.
  - cbn [uiInterval uiGrounded]. unfold grounded_flag.
    destruct (ltbP (deploymentRef s') 0.1); [lra|reflexivity].
  - unfold clamp_deployment, Math_max, Math_min. js_split; lra.
Qed.

Lemma X12_launch_completes_witness :
  exists N : nat, forall dts : list Q,
    (N <= List.length dts)%nat ->
    Forall (fun dt => 0.016 <= dt <= 0.1) dts ->
    let s' := run (set_envWindSpeed grounded_runaway 12) (frames dts) in
    deploymentRef s' == 1
    /\ uiGrounded (uiInterval s') = false
    /\ clamp_deployment (deploymentRef s') == 1.
Proof.
  apply (X12_launch_completes (set_envWindSpeed grounded_runaway 12)); qdecide.
Defined.

(** * Properties of the scene code *)

(** ** The projector, for reuse *)

Lemma worldToScreen_behind (Math_cos Math_sin : Q -> Q) (cam : Camera)
    (p : Point3D) (width height : Q) :
  0 <= zCam Math_cos Math_sin cam p ->
  worldToScreen Math_cos Math_sin cam p width height = None.
Proof.
  intros Hz.
  change (worldToScreen Math_cos Math_sin cam p width height)
    with (if geb (zCam Math_cos Math_sin cam p) 0 then None
          else Some {| scx := width / 2 + cam_x Math_cos Math_sin cam p
                                          * (fov / (fov - zCam Math_cos Math_sin cam p));
                       scy := height / 2 - cam_y Math_cos Math_sin cam p
                                           * (fov / (fov - zCam Math_cos Math_sin cam p));
                       scz := zCam Math_cos Math_sin cam p |}).
  unfold geb. destruct (lebP 0 (zCam Math_cos Math_sin cam p)); [reflexivity|contradiction].
Qed.

Lemma worldToScreen_front (Math_cos Math_sin : Q -> Q) (cam : Camera)
    (p : Point3D) (width height : Q) :
  zCam Math_cos Math_sin cam p < 0 ->
  worldToScreen Math_cos Math_sin cam p width height
  = Some {| scx := width / 2 + cam_x Math_cos Math_sin cam p
                               * (fov / (fov - zCam Math_cos Math_sin cam p));
            scy := height / 2 - cam_y Math_cos Math_sin cam p
                                * (fov / (fov - zCam Math_cos Math_sin cam p));
            scz := zCam Math_cos Math_sin cam p |}.
Proof.
  intros Hz.
  change (worldToScreen Math_cos Math_sin cam p width height)
    with (if geb (zCam Math_cos Math_sin cam p) 0 then None
          else Some {| scx := width / 2 + cam_x Math_cos Math_sin cam p
                                          * (fov / (fov - zCam Math_cos Math_sin cam p));
                       scy := height / 2 - cam_y Math_cos Math_sin cam p
                                           * (fov / (fov - zCam Math_cos Math_sin cam p));
                       scz := zCam Math_cos Math_sin cam p |}).
  unfold geb. destruct (lebP 0 (zCam Math_cos Math_sin cam p)); [lra|reflexivity].
Qed.

Lemma worldToScreen_some (Math_cos Math_sin : Q -> Q) (cam : Camera)
    (p : Point3D) (width height : Q) (sp : ScreenPoint) :
  worldToScreen Math_cos Math_sin cam p width height = Some sp ->
  zCam Math_cos Math_sin cam p < 0 /\ scz sp = zCam Math_cos Math_sin cam p.
Proof.
  intros Hsome.
  destruct (Qlt_le_dec (zCam Math_cos Math_sin cam p) 0) as [Hfront | Hback].
  - rewrite (worldToScreen_front _ _ _ _ width height Hfront) in Hsome.
    injection Hsome as <-. split; [exact Hfront|reflexivity].
  - rewrite (worldToScreen_behind _ _ _ _ width height Hback) in Hsome.
    discriminate.
Qed.

Lemma perspective_scale_range (z : Q) :
  z < 0 -> 0 < fov / (fov - z) < 1.
Proof.
  intros Hz. assert (Hpos : 0 < fov - z) by (unfold fov; lra). split.
  - apply Qlt_shift_div_l; [exact Hpos|]. unfold fov. lra.
  - apply Qlt_shift_div_r; [exact Hpos|]. unfold fov. lra.
Qed.

(** ** Interpolated parameters and twist *)

Lemma distScale_range (depl : Q) :
  0 <= depl <= 1 -> 0.05 <= distScale depl <= 1.
Proof. intros Hd. unfold distScale. lra. Qed.

(** X13.  In every frame the parameters interpolated from the deployment
    stay between their grounded and flying values: the base height within
    [[20, 280]], the length scale within [[0.05, 1]] and the tilt between
    the flying tilt (60 degrees) and the ground tilt (90 degrees); at
    deployment 0 and 1 they take exactly those end values. *)
Theorem X13_interpolation_range (s : Sim) (dt : Q) :
  let depl := frame_depl s dt in
  20 <= currentBaseY depl <= 280
  /\ 0.05 <= distScale depl <= 1
  /\ FLYING_TILT <= currentTilt depl <= GROUND_TILT
  /\ currentBaseY 0 == 20 /\ currentBaseY 1 == MAX_BASE_OFFSET_Y
  /\ distScale 0 == 0.05 /\ distScale 1 == 1
  /\ currentTilt 0 == GROUND_TILT /\ currentTilt 1 == FLYING_TILT.
Proof.
  intros depl. pose proof (clamp_deployment_range (frame_deployment s dt)) as Hd.
  fold (frame_depl s dt) in Hd. fold depl in Hd.
  split; [unfold currentBaseY, MAX_BASE_OFFSET_Y; lra|].
  split; [now apply distScale_range|].
  split.
  - assert (Hgap : FLYING_TILT - GROUND_TILT <= 0) by qdecide.
    unfold currentTilt.
    assert (FLYING_TILT - GROUND_TILT <= (FLYING_TILT - GROUND_TILT) * depl) by nra.
    assert ((FLYING_TILT - GROUND_TILT) * depl <= 0) by nra.
    lra.
  - repeat split; qdecide.
Qed.

(** X14.  The twist of a layer depends on its unscaled height only: at raw
    height [y] (scaled by the length scale before use) it is the fraction
    [min(y, 5000) / 5000] of [-(currentTorque / 100) * 2.3 * depl], so it
    is 0 at the base, grows linearly up to the rotor plane at 5000 and is
    the same for every layer above; the [|| 1] fallback of the divisor is
    never taken; and for a torque within [[0, 100]] the twist lies within
    [[-2.3, 0]] radians. *)
Theorem X14_twist_profile (currentTorque depl y : Q) :
  0 <= depl <= 1 -> 0 <= y ->
  let full := (currentTorque / 100) * 2.3 * depl in
  js_or (5000 * distScale depl) 1 = 5000 * distScale depl
  /\ (y <= 5000 ->
      netTwist currentTorque depl (y * distScale depl) == - (y / 5000 * full))
  /\ (5000 <= y -> netTwist currentTorque depl (y * distScale depl) == - full)
  /\ (0 <= currentTorque <= 100 ->
      -2.3 <= netTwist currentTorque depl (y * distScale depl) <= 0).
Proof.
  intros Hd Hy full.
  pose proof (distScale_range depl Hd) as Hs.
  set (ds := distScale depl) in *.
  assert (Eor : js_or (5000 * ds) 1 = 5000 * ds).
  { unfold js_or. destruct (Qeq_bool (5000 * ds) 0) eqn:E; [|reflexivity].
    apply Qeq_bool_iff in E. lra. }
  assert (Hlow : y <= 5000 ->
                 netTwist currentTorque depl (y * ds) == - (y / 5000 * full)).
  { intros Hle. unfold netTwist. fold ds. rewrite Eor. unfold Math_min.
    destruct (ltbP (5000 * ds) (y * ds)) as [Hover | _]; [nra|].
    subst full. field. lra. }
  assert (Hhigh : 5000 <= y -> netTwist currentTorque depl (y * ds) == - full).
  { intros Hge. unfold netTwist. fold ds. rewrite Eor. unfold Math_min.
    destruct (ltbP (5000 * ds) (y * ds)) as [_ | Hunder].
    - subst full. field. lra.
    - assert (Ey : y == 5000) by nra.
      rewrite Ey. subst full. field. lra. }
  split; [exact Eor|]. split; [exact Hlow|]. split; [exact Hhigh|].
  intros Ht.
  assert (Hfull : 0 <= full <= 2.3).
  { subst full. inv_literals. split; nra. }
  destruct (Qlt_le_dec y 5000) as [Hlt | Hge].
  - rewrite Hlow by lra.
    assert (Hfrac : 0 <= y / 5000 <= 1) by (inv_literals; lra).
    set (f := y / 5000) in *. split; nra.
  - rewrite (Hhigh Hge). lra.
Qed.

Lemma X14_twist_profile_witness :
  netTwist 50 1 (2500 * distScale 1) == - (2500 / 5000 * (50 / 100 * 2.3 * 1))
  /\ netTwist 50 (1 # 2) (6000 * distScale (1 # 2)) == - (50 / 100 * 2.3 * (1 # 2)).
Proof.
  split.
  - destruct (X14_twist_profile 50 1 2500) as (_ & Hlow & _);
      [split; qdecide|qdecide|].
    apply Hlow. qdecide.
  - destruct (X14_twist_profile 50 (1 # 2) 6000) as (_ & _ & Hhigh & _);
      [split; qdecide|qdecide|].
    apply Hhigh. qdecide.
Defined.

(** ** Placement of the structure *)

(** Squared distance of two points. *)
Lemma getTurbineWorldPos_difference (Math_cos Math_sin : Q -> Q) (depl : Q)
    (p q : Point3D) :
  let P := getTurbineWorldPos Math_cos Math_sin depl p in
  let R := getTurbineWorldPos Math_cos Math_sin depl q in
  let c := Math_cos (currentTilt depl) in
  let s := Math_sin (currentTilt depl) in
  p3x P - p3x R == p3x p - p3x q
  /\ p3y P - p3y R == (p3y p - p3y q) * c - (p3z p - p3z q) * s
  /\ p3z P - p3z R == (p3y p - p3y q) * s + (p3z p - p3z q) * c.
Proof. cbn. repeat split; ring. Qed.

(** X15.  Where the host's cosine and sine of the tilt angle satisfy
    [cos^2 + sin^2 = 1], placing the structure in the world (tilt, then
    base offset) is a rigid motion: the distance between any two structure
    points is unchanged, and so is their [x] coordinate. *)
Theorem X15_placement_is_rigid (Math_cos Math_sin : Q -> Q) (depl : Q)
    (p q : Point3D) :
  Math_cos (currentTilt depl) * Math_cos (currentTilt depl)
  + Math_sin (currentTilt depl) * Math_sin (currentTilt depl) == 1 ->
  let P := getTurbineWorldPos Math_cos Math_sin depl p in
  let R := getTurbineWorldPos Math_cos Math_sin depl q in
  (p3x P - p3x R) * (p3x P - p3x R) + (p3y P - p3y R) * (p3y P - p3y R)
  + (p3z P - p3z R) * (p3z P - p3z R)
  == (p3x p - p3x q) * (p3x p - p3x q) + (p3y p - p3y q) * (p3y p - p3y q)
     + (p3z p - p3z q) * (p3z p - p3z q)
  /\ p3x P = p3x p.
Proof.
  intros Hunit P R.
  destruct (getTurbineWorldPos_difference Math_cos Math_sin depl p q)
    as (Ex & Ey & Ez).
  fold P R in Ex, Ey, Ez. split; [|reflexivity].
  rewrite Ex, Ey, Ez.
  set (c := Math_cos (currentTilt depl)) in *.
  set (s := Math_sin (currentTilt depl)) in *.
  set (dy := p3y p - p3y q). set (dz := p3z p - p3z q).
  assert (E : (dy * c - dz * s) * (dy * c - dz * s)
              + (dy * s + dz * c) * (dy * s + dz * c)
              == (dy * dy + dz * dz) * (c * c + s * s)) by ring.
  rewrite <- Qplus_assoc, E, Hunit. ring.
Qed.

Lemma X15_placement_is_rigid_witness :
  let P := getTurbineWorldPos cos_3_5 sin_4_5 1 {| p3x := 180; p3y := 500; p3z := 0 |} in
  let R := getTurbineWorldPos cos_3_5 sin_4_5 1 {| p3x := 0; p3y := 0; p3z := 180 |} in
  (p3x P - p3x R) * (p3x P - p3x R) + (p3y P - p3y R) * (p3y P - p3y R)
  + (p3z P - p3z R) * (p3z P - p3z R)
  == (180 - 0) * (180 - 0) + (500 - 0) * (500 - 0) + (0 - 180) * (0 - 180)
  /\ p3x P = 180.
Proof.
  apply (X15_placement_is_rigid cos_3_5 sin_4_5 1
           {| p3x := 180; p3y := 500; p3z := 0 |}
           {| p3x := 0; p3y := 0; p3z := 180 |}).
  qdecide.
Defined.

(** ** Camera controller *)

Lemma target_depth (Math_cos Math_sin : Q -> Q) (cam : Camera) :
  zCam Math_cos Math_sin cam (camera_target cam) == - radius cam
  /\ cam_x Math_cos Math_sin cam (camera_target cam) == 0
  /\ cam_y Math_cos Math_sin cam (camera_target cam) == 0.
Proof.
  unfold zCam, cam_x, cam_y, cam_z2, camera_target. cbn. repeat split; ring.
Qed.

(** X16.  The point the camera orbits is always in view: for every pose
    with a positive radius, whatever the angles, it projects to the centre
    of the viewport with depth [-radius]. *)
Theorem X16_target_at_centre (Math_cos Math_sin : Q -> Q) (cam : Camera)
    (width height : Q) :
  0 < radius cam ->
  exists sp : ScreenPoint,
    worldToScreen Math_cos Math_sin cam (camera_target cam) width height = Some sp
    /\ scx sp == width / 2 /\ scy sp == height / 2 /\ scz sp == - radius cam.
Proof.
  intros Hr.
  destruct (target_depth Math_cos Math_sin cam) as (Ez & Ex & Ey).
  assert (Hfront : zCam Math_cos Math_sin cam (camera_target cam) < 0) by lra.
  eexists. split; [apply (worldToScreen_front _ _ _ _ _ _ Hfront)|].
  cbn [scx scy scz]. rewrite Ex, Ey. repeat split; [ring|ring|exact Ez].
Qed.

Lemma X16_target_at_centre_witness :
  exists sp : ScreenPoint,
    worldToScreen cos_near_0 sin_near_0 initialCamera
      (camera_target initialCamera) 800 600 = Some sp
    /\ scx sp == 800 / 2 /\ scy sp == 600 / 2
    /\ scz sp == - radius initialCamera.
Proof.
  apply X16_target_at_centre. qdecide.
Defined.

Lemma pointer_keeps_limits (Math_cos Math_sin : Q -> Q) (v : View) (e : MouseEvent) :
  camera_in_limits (cameraState v) ->
  camera_in_limits (cameraState (pointer Math_cos Math_sin v e)).
Proof.
  intros [Hphi Hrad]. destruct e; cbn [pointer].
  - split; assumption.
  - unfold handleMouseMove.
    destruct (negb (isDragging (mouseState v))); [split; assumption|].
    destruct (isPanning (mouseState v)); split; cbn; try assumption.
    apply clamp_range. lra.
  - split; assumption.
  - split; assumption.
  - split; cbn; [assumption|]. apply clamp_range. lra.
Qed.

(** X17.  The controller keeps the camera within its limits: from a pose
    with pitch within [[-1.5, 1.5]] and radius within [[200, 20000]], such
    as the initial one, every sequence of mouse and wheel events, with any
    coordinates and wheel deltas, leads to a pose within the same limits. *)
Theorem X17_camera_limits (Math_cos Math_sin : Q -> Q) (es : list MouseEvent)
    (v : View) :
  camera_in_limits (cameraState v) ->
  camera_in_limits (cameraState (pointer_run Math_cos Math_sin v es)).
Proof.
  revert v. induction es as [|e es IH]; intros v Hv; [exact Hv|].
  change (pointer_run Math_cos Math_sin v (e :: es))
    with (pointer_run Math_cos Math_sin (pointer Math_cos Math_sin v e) es).
  apply IH. now apply pointer_keeps_limits.
Qed.

Lemma X17_camera_limits_witness :
  camera_in_limits
    (cameraState
       (pointer_run cos_near_0 sin_near_0 initialView
          [Wheel 100000; MouseDown 0 false 10 10; MouseMove 10 (-5000);
           MouseUp; Wheel (-100000)])).
Proof.
  apply X17_camera_limits. repeat split; qdecide.
Defined.

Lemma idle_move (Math_cos Math_sin : Q -> Q) (v : View) (x y : Q) :
  isDragging (mouseState v) = false -> handleMouseMove Math_cos Math_sin v x y = v.
Proof. intros Hidle. unfold handleMouseMove. now rewrite Hidle. Qed.

(** X18.  Pointer moves without a button held do nothing: once the button
    is released, or the pointer has left the canvas, any number of moves
    leaves camera and mouse state as they are. *)
Theorem X18_idle_moves_ignored (Math_cos Math_sin : Q -> Q) (v : View)
    (moves : list (Q * Q)) :
  isDragging (mouseState v) = false ->
  pointer_run Math_cos Math_sin v (map (fun m => MouseMove (fst m) (snd m)) moves) = v
  /\ pointer_run Math_cos Math_sin (handleMouseUp v)
       (map (fun m => MouseMove (fst m) (snd m)) moves) = handleMouseUp v.
Proof.
  intros Hidle.
  assert (Hgen : forall w : View, isDragging (mouseState w) = false ->
            pointer_run Math_cos Math_sin w
              (map (fun m => MouseMove (fst m) (snd m)) moves) = w).
  { induction moves as [|m moves IH]; intros w Hw; [reflexivity|].
    cbn [map]. unfold pointer_run. cbn [fold_left pointer].
    rewrite idle_move by exact Hw. now apply IH. }
  split; [now apply Hgen|]. now apply Hgen.
Qed.

Lemma X18_idle_moves_ignored_witness :
  pointer_run cos_near_0 sin_near_0 initialView
    (map (fun m => MouseMove (fst m) (snd m)) [(5, 5); (400, 90)]) = initialView.
Proof.
  apply (X18_idle_moves_ignored cos_near_0 sin_near_0 initialView
           [(5, 5); (400, 90)]).
  reflexivity.
Defined.

(** X19.  Without the right button or Shift the orbit target never moves:
    from a view that is not panning, every sequence of moves, wheel turns,
    releases and presses of another button leaves the target where it
    was. *)
Theorem X19_target_moves_only_by_pan (Math_cos Math_sin : Q -> Q)
    (es : list MouseEvent) (v : View) :
  isPanning (mouseState v) = false -> Forall no_pan_event es ->
  let cam' := cameraState (pointer_run Math_cos Math_sin v es) in
  targetX cam' = targetX (cameraState v)
  /\ targetY cam' = targetY (cameraState v)
  /\ targetZ cam' = targetZ (cameraState v).
Proof.
  intros Hpan Hall. revert v Hpan.
  induction Hall as [|e es He Hall IH]; intros v Hpan; [now repeat split|].
  change (pointer_run Math_cos Math_sin v (e :: es))
    with (pointer_run Math_cos Math_sin (pointer Math_cos Math_sin v e) es).
  assert (Hstep : isPanning (mouseState (pointer Math_cos Math_sin v e)) = false
                  /\ targetX (cameraState (pointer Math_cos Math_sin v e))
                     = targetX (cameraState v)
                  /\ targetY (cameraState (pointer Math_cos Math_sin v e))
                     = targetY (cameraState v)
                  /\ targetZ (cameraState (pointer Math_cos Math_sin v e))
                     = targetZ (cameraState v)).
  { destruct e; cbn [pointer].
    - destruct He as [Hb ->]. cbn. repeat split.
      destruct (Z.eqb_spec button 2); [contradiction|reflexivity].
    - unfold handleMouseMove.
      destruct (negb (isDragging (mouseState v))); [now repeat split|].
      rewrite Hpan. cbn. now repeat split.
    - cbn. now repeat split.
    - cbn. now repeat split.
    - cbn. now repeat split. }
  destruct Hstep as (Hp & Ex & Ey & Ez).
  cbv zeta. rewrite <- Ex, <- Ey, <- Ez. now apply IH.
Qed.

Lemma X19_target_moves_only_by_pan_witness :
  let cam' := cameraState
                (pointer_run cos_near_0 sin_near_0 initialView
                   [MouseDown 0 false 100 100; MouseMove 160 40; Wheel 50; MouseUp]) in
  targetX cam' = targetX (cameraState initialView)
  /\ targetY cam' = targetY (cameraState initialView)
  /\ targetZ cam' = targetZ (cameraState initialView).
Proof.
  apply X19_target_moves_only_by_pan; [reflexivity|].
  repeat constructor. discriminate.
Defined.

(** ** Draw helpers *)

Lemma zCam_midpoint (Math_cos Math_sin : Q -> Q) (cam : Camera) (a b : Point3D) :
  zCam Math_cos Math_sin cam
    {| p3x := (p3x a + p3x b) / 2; p3y := (p3y a + p3y b) / 2;
       p3z := (p3z a + p3z b) / 2 |}
  == (zCam Math_cos Math_sin cam a + zCam Math_cos Math_sin cam b) / 2.
Proof. unfold zCam, cam_z2. cbn. field. Qed.

(** X20.  [drawCylinder] keys a segment by the depth of its midpoint, which
    is the mean of the depths of its ends.  So a segment with both ends in
    front of the camera is always queued and its paint strokes from one
    projected end to the other; a segment whose midpoint is at or behind
    the camera plane is never queued; and whenever a segment is queued at
    least one of its ends is in front of the camera. *)
Theorem X20_drawCylinder_culling (Math_cos Math_sin : Q -> Q) (cam : Camera)
    (width height : Q) (a b : Point3D) (r : Q) (color : string) :
  let za := zCam Math_cos Math_sin cam a in
  let zb := zCam Math_cos Math_sin cam b in
  (za < 0 -> zb < 0 ->
     exists (cmd : CylinderCommand) (s1 s2 : ScreenPoint),
       drawCylinder Math_cos Math_sin cam width height a b r color = Some cmd
       /\ cmd_z cmd == (za + zb) / 2
       /\ worldToScreen Math_cos Math_sin cam a width height = Some s1
       /\ worldToScreen Math_cos Math_sin cam b width height = Some s2
       /\ cmd_draw cmd
          = Some {| stroke_from := s1; stroke_to := s2;
                    lineWidth := (r * 2) * (fov / (fov - cmd_z cmd));
                    strokeStyle := color |})
  /\ (0 <= za + zb ->
      drawCylinder Math_cos Math_sin cam width height a b r color = None)
  /\ (forall cmd : CylinderCommand,
        drawCylinder Math_cos Math_sin cam width height a b r color = Some cmd ->
        za < 0 \/ zb < 0).
Proof.
  intros za zb.
  pose proof (zCam_midpoint Math_cos Math_sin cam a b) as Emid.
  fold za zb in Emid.
  set (mid := {| p3x := (p3x a + p3x b) / 2; p3y := (p3y a + p3y b) / 2;
                 p3z := (p3z a + p3z b) / 2 |}) in *.
  assert (Hunfold :
            drawCylinder Math_cos Math_sin cam width height a b r color
            = match worldToScreen Math_cos Math_sin cam mid width height with
              | None => None
              | Some sc =>
                  Some {| cmd_z := scz sc;
                          cmd_draw :=
                            match worldToScreen Math_cos Math_sin cam a width height,
                                  worldToScreen Math_cos Math_sin cam b width height with
                            | Some s1, Some s2 =>
                                Some {| stroke_from := s1; stroke_to := s2;
                                        lineWidth := (r * 2) * (fov / (fov - scz sc));
                                        strokeStyle := color |}
                            | _, _ => None
                            end |}
              end) by reflexivity.
  rewrite Hunfold. split; [|split].
  - intros Ha Hb.
    assert (Hm : zCam Math_cos Math_sin cam mid < 0) by (inv_literals; lra).
    rewrite (worldToScreen_front _ _ _ _ width height Hm).
    rewrite (worldToScreen_front _ _ _ a width height Ha).
    rewrite (worldToScreen_front _ _ _ b width height Hb).
    do 3 eexists. cbn [cmd_z cmd_draw scz].
    split; [reflexivity|]. split; [exact Emid|].
    split; [reflexivity|]. split; reflexivity.
  - intros Hsum.
    assert (Hm : 0 <= zCam Math_cos Math_sin cam mid) by (inv_literals; lra).
    now rewrite (worldToScreen_behind _ _ _ _ width height Hm).
  - intros cmd Hcmd.
    destruct (worldToScreen Math_cos Math_sin cam mid width height) as [sc|] eqn:Esc;
      [|discriminate].
    apply worldToScreen_some in Esc as [Hm _].
    destruct (Qlt_le_dec za 0) as [Ha | Ha]; [now left|right].
    inv_literals. lra.
Qed.

Lemma X20_drawCylinder_culling_witness :
  exists (cmd : CylinderCommand) (s1 s2 : ScreenPoint),
    drawCylinder cos_near_0 sin_near_0 camera_ahead 800 600
      {| p3x := 0; p3y := -400; p3z := 0 |} {| p3x := 0; p3y := -20; p3z := 0 |}
      30 "rgba(100,116,139, 0.5)" = Some cmd
    /\ cmd_z cmd == (-1000 + -1000) / 2
    /\ worldToScreen cos_near_0 sin_near_0 camera_ahead
         {| p3x := 0; p3y := -400; p3z := 0 |} 800 600 = Some s1
    /\ worldToScreen cos_near_0 sin_near_0 camera_ahead
         {| p3x := 0; p3y := -20; p3z := 0 |} 800 600 = Some s2
    /\ cmd_draw cmd
       = Some {| stroke_from := s1; stroke_to := s2;
                 lineWidth := (30 * 2) * (fov / (fov - cmd_z cmd));
                 strokeStyle := "rgba(100,116,139, 0.5)" |}.
Proof.
  destruct (X20_drawCylinder_culling cos_near_0 sin_near_0 camera_ahead 800 600
              {| p3x := 0; p3y := -400; p3z := 0 |}
              {| p3x := 0; p3y := -20; p3z := 0 |} 30 "rgba(100,116,139, 0.5)")
    as (Hboth & _ & _).
  destruct Hboth as (cmd & s1 & s2 & Hcmd & Hz & H1 & H2 & Hdraw);
    [qdecide|qdecide|].
  exists cmd, s1, s2. split; [exact Hcmd|]. split.
  - rewrite Hz. qdecide.
  - split; [exact H1|]. split; [exact H2|exact Hdraw].
Defined.

(** ** Labels *)

(** X21.  The colour of the generator label follows the status string: for
    a deployed rotor (deployment at least 0.5), a positive optimal TSR and
    a wind that is at most 3 or at least 4 (the wind slider gives whole
    numbers), and outside the state "runaway with wind at most 3", the
    colour computed by the frame is the one that belongs to the status the
    UI sampler computes from the same values. *)
Theorem X21_label_colour_follows_status (deployment wind tsr optimal : Q)
    (runaway : bool) :
  0.5 <= deployment -> 0 < optimal -> wind <= 3 \/ 4 <= wind ->
  ~ (runaway = true /\ wind <= 3) ->
  statusColor tsr optimal wind runaway
  = color_for_status (classify_status deployment wind tsr optimal runaway).
Proof.
  intros Hd Hopt Hwind Hrw.
  unfold statusColor, classify_status, gtb, geb.
  destruct (ltbP deployment 0.5); [lra|].
  destruct (lebP wind 3) as [Hcalm | Hwindy].
  - destruct runaway; [exfalso; apply Hrw; now split|reflexivity].
  - destruct runaway; [reflexivity|].
    destruct (lebP 4 wind); [|lra].
    destruct (ltbP tsr (optimal * 0.6)); destruct (ltbP (optimal * 1.25) tsr);
      cbn [andb]; first [reflexivity | lra].
Qed.

Lemma X21_label_colour_follows_status_witness :
  statusColor 1 4.35625 12 false = "text-amber-400"%string.
Proof.
  rewrite (X21_label_colour_follows_status 1 12 1 4.35625 false).
  - reflexivity.
  - qdecide.
  - qdecide.
  - right. qdecide.
  - intros [Hr _]. discriminate Hr.
Defined.

(** X22.  [getLabelData] gives a label exactly when it is handed a target
    point and the layer centre is in front of the camera.  The label's
    anchor is level with the projected centre and, for a radius that is not
    negative, lies to its right by at least 60 and at most 60 plus the
    radius; its target is the screen position it was handed. *)
Theorem X22_label_anchor (Math_cos Math_sin : Q -> Q) (cam : Camera)
    (width height depl centerY r : Q) (targetS : ScreenPoint)
    (extra : option string) :
  let centre := getTurbineWorldPos Math_cos Math_sin depl
                  {| p3x := 0; p3y := centerY; p3z := 0 |} in
  (zCam Math_cos Math_sin cam centre < 0 -> 0 <= r ->
     exists (lbl : LabelData) (centerS : ScreenPoint),
       getLabelData Math_cos Math_sin cam width height depl centerY r
         (Some targetS) extra = Some lbl
       /\ worldToScreen Math_cos Math_sin cam centre width height = Some centerS
       /\ p2y (anchor lbl) = scy centerS
       /\ scx centerS + 60 <= p2x (anchor lbl) <= scx centerS + 60 + r
       /\ target lbl = {| p2x := scx targetS; p2y := scy targetS |}
       /\ extraText lbl = extra)
  /\ (0 <= zCam Math_cos Math_sin cam centre ->
      getLabelData Math_cos Math_sin cam width height depl centerY r
        (Some targetS) extra = None)
  /\ getLabelData Math_cos Math_sin cam width height depl centerY r None extra
     = None.
Proof.
  intros centre.
  assert (Hunfold :
            getLabelData Math_cos Math_sin cam width height depl centerY r
              (Some targetS) extra
            = match worldToScreen Math_cos Math_sin cam centre width height with
              | None => None
              | Some centerS =>
                  Some {| target := {| p2x := scx targetS; p2y := scy targetS |};
                          anchor :=
                            {| p2x := scx centerS
                                      + r * (fov / (fov - scz centerS)) + 60;
                               p2y := scy centerS |};
                          extraText := extra |}
              end) by reflexivity.
  rewrite Hunfold. split; [|split; [|reflexivity]].
  - intros Hfront Hr.
    rewrite (worldToScreen_front _ _ _ _ width height Hfront).
    do 2 eexists. split; [reflexivity|]. split; [reflexivity|].
    cbn [anchor target extraText p2x p2y scx scy scz].
    split; [reflexivity|]. split; [|split; reflexivity].
    pose proof (perspective_scale_range _ Hfront) as Hk.
    set (k := fov / (fov - zCam Math_cos Math_sin cam centre)) in *.
    assert (0 <= r * k) by (apply Qmult_le_0_compat; lra).
    assert (r * k <= r * 1) by (rewrite !(Qmult_comm r); apply Qmult_le_compat_r; lra).
    lra.
  - intros Hback.
    now rewrite (worldToScreen_behind _ _ _ _ width height Hback).
Qed.

Lemma X22_label_anchor_witness :
  exists (lbl : LabelData) (centerS : ScreenPoint),
    getLabelData cos_3_5 sin_4_5 camera_ahead 800 600 1 0 180
      (Some {| scx := 10; scy := 20; scz := -5 |}) None = Some lbl
    /\ worldToScreen cos_3_5 sin_4_5 camera_ahead
         (getTurbineWorldPos cos_3_5 sin_4_5 1 {| p3x := 0; p3y := 0; p3z := 0 |})
         800 600 = Some centerS
    /\ p2y (anchor lbl) = scy centerS
    /\ scx centerS + 60 <= p2x (anchor lbl) <= scx centerS + 60 + 180
    /\ target lbl = {| p2x := 10; p2y := 20 |}
    /\ extraText lbl = None.
Proof.
  destruct (X22_label_anchor cos_3_5 sin_4_5 camera_ahead 800 600 1 0 180
              {| scx := 10; scy := 20; scz := -5 |} None) as (Hshown & _ & _).
  apply Hshown; qdecide.
Defined.

(** * The states the UI timer samples *)

(** ** Power saturation needs torque and wind *)

Lemma safeRequired_low_wind (wind : Q) :
  0 <= wind <= 3 -> Math_max 1 (requiredTorqueForOptimal wind) <= 6.25.
Proof.
  intros Hw.
  assert (Hreq : requiredTorqueForOptimal wind <= 6.25).
  { unfold requiredTorqueForOptimal, Math_max.
    destruct (ltbP 0.1 wind); inv_literals.
    - assert (E : (wind * (1 # 12)) ^ 2 * 100 == wind * wind * (100 # 144))
        by (simpl; ring).
      rewrite E. nra.
    - qdecide. }
  unfold Math_max. destruct (ltbP 1 (requiredTorqueForOptimal wind)); lra.
Qed.

(** The circumference is at least 69 m, so [rpm] is at most 60/69 of the
    tip speed. *)
Lemma rpm_of_upper (tsr wind lo : Q) :
  0 <= tsr -> 0 <= wind -> 100 <= lo ->
  rpm_of tsr wind lo <= tsr * wind * (60 # 69).
Proof.
  intros Ht Hw Hlo. unfold rpm_of.
  assert (Hlo0 : 0 <= lo) by lra.
  pose proof (circumference_positive lo Hlo0) as Hc.
  set (circ := 2 * Math_PI * ((ROTOR_RADIUS_SCALE + lo) / 100)) in *.
  assert (Hcirc : 69 <= circ).
  { subst circ. unfold ROTOR_RADIUS_SCALE, Math_PI. inv_literals. lra. }
  assert (Htw : 0 <= tsr * wind) by (now apply Qmult_le_0_compat).
  apply Qle_shift_div_r; [exact Hc|].
  set (tw := tsr * wind) in *.
  assert (E : tw * (60 # 69) * circ == tw * (60 # 69) * 69 + tw * (60 # 69) * (circ - 69))
    by ring.
  assert (0 <= tw * (60 # 69) * (circ - 69)).
  { apply Qmult_le_0_compat; [|lra]. apply Qmult_le_0_compat; [exact Htw|qdecide]. }
  rewrite E. lra.
Qed.

Lemma kw_of_saturated (currentTorque rpm bc : Q) :
  30 <= kw_of currentTorque rpm bc ->
  30 <= (currentTorque / 100) * (rpm / 32) * 30 * (1 + ((bc - 6) * 0.1)).
Proof.
  unfold kw_of, Math_min, Math_max, Math_floor.
  set (arg := (currentTorque / 100) * (rpm / 32) * 30 * (1 + ((bc - 6) * 0.1))).
  pose proof (Qfloor_le arg) as Hfloor.
  js_split; intros Hk; lra.
Qed.

Lemma kw_of_unsaturated (currentTorque rpm bc : Q) :
  (currentTorque / 100) * (rpm / 32) * 30 * (1 + ((bc - 6) * 0.1)) < 30 ->
  kw_of currentTorque rpm bc < 30.
Proof.
  unfold kw_of, Math_min, Math_max, Math_floor.
  set (arg := (currentTorque / 100) * (rpm / 32) * 30 * (1 + ((bc - 6) * 0.1))).
  pose proof (Qfloor_le arg) as Hfloor.
  intros Harg. js_split; lra.
Qed.

(** The argument of the floor is at most [currentTorque * rpm * 0.015]. *)
Lemma power_argument_upper (currentTorque rpm bc : Q) :
  0 <= currentTorque -> 0 <= rpm -> 5 <= bc <= 12 ->
  (currentTorque / 100) * (rpm / 32) * 30 * (1 + ((bc - 6) * 0.1))
  <= currentTorque * rpm * (3 # 200).
Proof.
  intros Ht Hr Hbc. inv_literals.
  set (f := 1 + (bc - 6) * 0.1).
  assert (Hf : 0 <= f <= 1.6) by (subst f; lra).
  assert (Htr : 0 <= currentTorque * rpm) by (now apply Qmult_le_0_compat).
  set (tr := currentTorque * rpm) in *.
  assert (E1 : currentTorque * (1 # 100) * (rpm * (1 # 32)) * 30 * f
               == tr * (30 # 3200) * f) by (subst tr; ring).
  assert (E2 : tr * (3 # 200) == tr * (30 # 3200) * 1.6) by ring.
  rewrite E1, E2.
  rewrite !(Qmult_comm (tr * (30 # 3200))).
  apply Qmult_le_compat_r; [lra|].
  apply Qmult_le_0_compat; [exact Htr|qdecide].
Qed.

Lemma render_tsr_range (s : Sim) (dt : Q) :
  Inv s -> tsr (physicsState s) <= 6.974 ->
  0 <= tsr (physicsState (render s dt)) <= 6.974.
Proof.
  intros HI Hb. split; [now apply render_tsr_nonneg|].
  pose proof (frame_targetTSR_upper s dt HI).
  cbn [render physicsState tsr]. unfold inertia. lra.
Qed.

Lemma render_rpm_upper (s : Sim) (dt : Q) (W : Q) :
  Inv s -> tsr (physicsState s) <= 6.974 -> envWindSpeed s <= W ->
  0 <= rpm (physicsState (render s dt)) <= 6.974 * W * (60 # 69).
Proof.
  intros HI Hb HW. split; [now apply render_rpm_nonneg|].
  destruct (render_tsr_range s dt HI Hb) as [Ht0 Ht1].
  destruct HI as [([Hw0 Hw1] & _ & _ & [Hlo _] & _) _].
  change (rpm (physicsState (render s dt)))
    with (rpm_of (tsr (physicsState (render s dt))) (envWindSpeed s)
            (bladeLengthOut s)).
  pose proof (rpm_of_upper _ _ _ Ht0 Hw0 Hlo) as Hr.
  set (t := tsr (physicsState (render s dt))) in *.
  set (w := envWindSpeed s) in *.
  assert (Htw : t * w <= 6.974 * W).
  { apply Qle_trans with (6.974 * w).
    - apply Qmult_le_compat_r; lra.
    - rewrite !(Qmult_comm 6.974). apply Qmult_le_compat_r; [lra|qdecide]. }
  assert (t * w * (60 # 69) <= 6.974 * W * (60 # 69))
    by (apply Qmult_le_compat_r; [exact Htw|qdecide]).
  lra.
Qed.

Lemma frame_currentTorque_range (s : Sim) :
  Inv s -> 0 <= frame_currentTorque s <= 100.
Proof.
  intros [(_ & Ht & _) _].
  apply (torque_control_range (isAutoPilot s) (torque s)
           (tsr (physicsState s)) (frame_optimal s) Ht).
Qed.

(** A frame that leaves [kw] at 30 computed with a torque of at least 12.5. *)
Lemma render_kw_saturated (s : Sim) (dt : Q) :
  Inv s -> tsr (physicsState s) <= 6.974 ->
  30 <= kw (physicsState (render s dt)) -> 12.5 <= frame_currentTorque s.
Proof.
  intros HI Hb Hk.
  assert (HW : envWindSpeed s <= 25) by apply HI.
  destruct (render_rpm_upper s dt 25 HI Hb HW) as [Hr0 Hr1].
  destruct (frame_currentTorque_range s HI) as [Hc0 Hc1].
  assert (Hbc : 5 <= bladeCount s <= 12) by apply HI.
  change (kw (physicsState (render s dt)))
    with (kw_of (frame_currentTorque s) (rpm (physicsState (render s dt)))
            (bladeCount s)) in Hk.
  apply kw_of_saturated in Hk.
  pose proof (power_argument_upper _ _ _ Hc0 Hr0 Hbc) as Harg.
  set (c := frame_currentTorque s) in *.
  set (r := rpm (physicsState (render s dt))) in *.
  assert (Hr160 : r <= 160).
  { apply Qle_trans with (6.974 * 25 * (60 # 69)); [exact Hr1|qdecide]. }
  assert (Hcr : c * r <= c * 160).
  { rewrite !(Qmult_comm c). apply Qmult_le_compat_r; lra. }
  assert (Hcr' : c * r * (3 # 200) <= c * 160 * (3 # 200)).
  { apply Qmult_le_compat_r; [exact Hcr|qdecide]. }
  lra.
Qed.

(** In a wind of at most 3 no frame leaves [kw] at 30. *)
Lemma render_kw_low_wind (s : Sim) (dt : Q) :
  Inv s -> tsr (physicsState s) <= 6.974 -> envWindSpeed s <= 3 ->
  kw (physicsState (render s dt)) < 30.
Proof.
  intros HI Hb HW.
  destruct (render_rpm_upper s dt 3 HI Hb HW) as [Hr0 Hr1].
  destruct (frame_currentTorque_range s HI) as [Hc0 Hc1].
  assert (Hbc : 5 <= bladeCount s <= 12) by apply HI.
  change (kw (physicsState (render s dt)))
    with (kw_of (frame_currentTorque s) (rpm (physicsState (render s dt)))
            (bladeCount s)).
  apply kw_of_unsaturated.
  pose proof (power_argument_upper _ _ _ Hc0 Hr0 Hbc) as Harg.
  set (c := frame_currentTorque s) in *.
  set (r := rpm (physicsState (render s dt))) in *.
  assert (Hr19 : r <= 19).
  { apply Qle_trans with (6.974 * 3 * (60 # 69)); [exact Hr1|qdecide]. }
  assert (Hcr : c * r <= 100 * 19).
  { apply Qle_trans with (c * 19).
    - rewrite !(Qmult_comm c). apply Qmult_le_compat_r; lra.
    - apply Qmult_le_compat_r; lra. }
  assert (Hcr' : c * r * (3 # 200) <= 100 * 19 * (3 # 200)).
  { apply Qmult_le_compat_r; [exact Hcr|qdecide]. }
  assert (100 * 19 * (3 # 200) < 30) by qdecide.
  lra.
Qed.

(** ** The frame torque from one frame to the next *)

Lemma clamp_reflects_lower (p x : Q) :
  0 < p -> p <= Math_max 0 (Math_min 80 x) -> p <= x.
Proof. unfold Math_max, Math_min. js_split; lra. Qed.

Lemma clamp_keeps_lower (p x : Q) :
  p <= 80 -> p <= x -> p <= Math_max 0 (Math_min 80 x).
Proof. unfold Math_max, Math_min. js_split; lra. Qed.

Lemma next_frame_torque (ap : bool) (t tsr tsr' optimal : Q) :
  0 <= t <= 100 -> 0 <= optimal <= 4.974 -> 0 <= tsr ->
  -0.35 <= tsr' - tsr ->
  12.5 <= fst (torque_control ap t tsr optimal) ->
  6.25 <= fst (torque_control ap (snd (torque_control ap t tsr optimal))
                 tsr' optimal).
Proof.
  intros Ht Hopt Htsr Hstep.
  destruct ap; [|cbn; lra].
  set (nt := autopilot_newTorque t tsr optimal).
  assert (Etc : torque_control true t tsr optimal
                = if gtb (Math_abs (nt - t)) 0.5
                  then (nt, t + (nt - t) * 0.1) else (t, t)) by reflexivity.
  rewrite Etc. clear Etc. unfold gtb, Math_abs.
  assert (Hnt : 0 <= nt <= 80) by apply autopilot_newTorque_range.
  assert (Hraw : forall p : Q, 0 < p -> p <= nt -> p <= t + (tsr - optimal) * 2.0).
  { intros p Hp Hle. apply (clamp_reflects_lower p); [exact Hp|exact Hle]. }
  assert (Hnext : forall u : Q, 6.75 <= u + (tsr' - optimal) * 2.0 ->
            6.75 <= autopilot_newTorque u tsr' optimal).
  { intros u Hu. apply clamp_keeps_lower; [qdecide|exact Hu]. }
  assert (Hfst : forall u : Q, 6.75 <= u + (tsr' - optimal) * 2.0 ->
            6.25 <= fst (torque_control true u tsr' optimal)).
  { intros u Hu. specialize (Hnext u Hu).
    unfold torque_control, gtb, Math_abs.
    destruct (ltbP 0.5 (Qabs (autopilot_newTorque u tsr' optimal - u)))
      as [_ | Hclose]; cbn [fst]; [lra|].
    destruct (Qabs_cases (autopilot_newTorque u tsr' optimal - u))
      as [[? ?] | [? ?]]; lra. }
  destruct (ltbP 0.5 (Qabs (nt - t))) as [Hfar | Hnear]; cbn [fst snd]; intros Hc.
  - (* the frame computed with the target and eased the stored torque *)
    assert (Hsum : 12.5 <= t + (tsr - optimal) * 2.0) by (apply Hraw; lra).
    apply Hfst. lra.
  - (* the frame computed with the stored torque and left it *)
    assert (Hn12 : 12 <= nt).
    { destruct (Qabs_cases (nt - t)) as [[? ?] | [? ?]]; lra. }
    assert (Hsum : 12 <= t + (tsr - optimal) * 2.0) by (apply Hraw; lra).
    apply Hfst. lra.
Qed.

(** ** The invariant of the component's runs *)

Lemma frame_targetTSR_nonneg (s : Sim) (dt : Q) :
  Inv s -> 0 <= frame_targetTSR s dt.
Proof.
  intros [(_ & _ & [_ Hbc] & [Hlo _] & [_ Hli]) _].
  pose proof (optimalTSR_positive _ _ _ Hbc Hlo Hli) as Hopt.
  pose proof (maxTSR_minus_optimal (bladeCount s) (bladeLengthOut s)
                (bladeLengthIn s)) as Hmax.
  apply target_tsr_nonneg; unfold frame_optimal, frame_max; lra.
Qed.

Lemma settled_frame_ready (s : Sim) : settled s -> frame_ready s.
Proof.
  intros (HI & Hb & _ & _ & Hlow). split; [exact HI|]. split; [exact Hb|].
  intros Hw Hk. specialize (Hlow Hw). lra.
Qed.

Lemma render_no_entry_low_wind (s : Sim) (dt : Q) :
  frame_ready s -> envWindSpeed s <= 3 ->
  0.5 <= deploymentRef (render s dt) ->
  isRunaway (physicsState (render s dt)) = false.
Proof.
  intros (HI & Hb & Hsat) Hw Hd.
  assert (Hdepl : 0.5 <= frame_depl s dt).
  { destruct (Qlt_le_dec (frame_depl s dt) 0.5) as [Hlt | Hge]; [|exact Hge].
    pose proof (proj1 (clamp_deployment_lt_half (frame_deployment s dt)) Hlt)
      as Hstored.
    change (deploymentRef (render s dt)) with (frame_deployment s dt) in Hd. lra. }
  change (isRunaway (physicsState (render s dt))) with (snd (frame_target s dt)).
  unfold frame_target. rewrite (target_tsr_flying _ _ _ _ _ _ _ Hdepl).
  destruct (isRunaway (physicsState s)).
  - destruct (lebP (envWindSpeed s) 18); [reflexivity|lra].
  - unfold geb, gtb.
    destruct (lebP 1.0 (frame_brakeRatio s)) as [Hbrake | Hfree]; [reflexivity|].
    cbn [snd].
    destruct (lebP 30 (kw (physicsState s))) as [Hk | Hk];
      [|now rewrite andb_false_r].
    exfalso. apply Hfree.
    specialize (Hsat Hw Hk).
    assert (Hw0 : 0 <= envWindSpeed s <= 3) by (split; [apply HI|exact Hw]).
    pose proof (safeRequired_low_wind _ Hw0) as Hsafe.
    pose proof (safeRequired_floor (envWindSpeed s)) as Hfloor.
    unfold frame_brakeRatio, brakeRatio.
    apply Qle_shift_div_l; lra.
Qed.

Lemma render_settled (s : Sim) (dt : Q) : frame_ready s -> settled (render s dt).
Proof.
  intros Hready. pose proof Hready as (HI & Hb & _).
  destruct (render_tsr_range s dt HI Hb) as [Ht0 Ht1].
  split; [now apply render_Inv|]. split; [exact Ht1|].
  split; [intros Hw Hd; exact (render_no_entry_low_wind s dt Hready Hw Hd)|].
  split.
  - intros Hk. pose proof (render_kw_saturated s dt HI Hb Hk) as Hc.
    change (frame_currentTorque (render s dt))
      with (fst (torque_control (isAutoPilot s)
                   (snd (torque_control (isAutoPilot s) (torque s)
                           (tsr (physicsState s)) (frame_optimal s)))
                   (tsr (physicsState (render s dt))) (frame_optimal s))).
    apply next_frame_torque; try assumption.
    + apply HI.
    + destruct HI as [(_ & _ & [Hbc5 Hbc] & [Hlo Hlo'] & [Hli Hli']) _].
      pose proof (optimalTSR_positive _ _ _ Hbc Hlo Hli').
      pose proof (optimalTSR_upper _ _ _ Hbc5 Hlo' Hli).
      unfold frame_optimal. lra.
    + apply HI.
    + pose proof (frame_targetTSR_nonneg s dt HI).
      cbn [render physicsState tsr]. unfold inertia. lra.
  - intros Hw. exact (render_kw_low_wind s dt HI Hb Hw).
Qed.

Lemma step_frame_ready (s : Sim) (e : Event) :
  settled s -> well_formed e -> frame_ready (step s e).
Proof.
  intros Hs Hwf. pose proof Hs as (HI & Hb & _ & Hsat & Hlow).
  destruct e.
  - apply settled_frame_ready. apply render_settled.
    now apply settled_frame_ready.
  - apply (settled_frame_ready s Hs).
  - (* the wind slider: the frame torque does not depend on the wind *)
    split; [now apply step_Inv|]. split; [exact Hb|].
    intros _ Hk. exact (Hsat Hk).
  - split; [now apply step_Inv|].
    cbn [step]. unfold torque_slider.
    destruct (isAutoPilot s || uiRunaway s || uiGrounded s);
      [apply (settled_frame_ready s Hs)|].
    destruct (negb (isAutoPilot s)); [|apply (settled_frame_ready s Hs)].
    split; [exact Hb|]. intros Hw Hk. specialize (Hlow Hw).
    change (kw (physicsState (set_torque s (parseInt v))))
      with (kw (physicsState s)) in Hk. lra.
  - split; [now apply step_Inv|].
    cbn [step]. unfold autopilot_button.
    destruct (uiRunaway s || uiGrounded s); [apply (settled_frame_ready s Hs)|].
    split; [exact Hb|]. intros Hw Hk. specialize (Hlow Hw).
    change (kw (physicsState (set_isAutoPilot s (negb (isAutoPilot s)))))
      with (kw (physicsState s)) in Hk. lra.
  - split; [now apply step_Inv|]. split; [exact Hb|].
    intros Hw Hk. specialize (Hlow Hw).
    change (kw (physicsState (step s (BladeLengthOutSlider v))))
      with (kw (physicsState s)) in Hk. lra.
  - split; [now apply step_Inv|]. split; [exact Hb|].
    intros Hw Hk. specialize (Hlow Hw).
    change (kw (physicsState (step s (BladeLengthInSlider v))))
      with (kw (physicsState s)) in Hk. lra.
  - split; [now apply step_Inv|]. split; [exact Hb|].
    intros Hw Hk. specialize (Hlow Hw).
    change (kw (physicsState (step s (BladeCountSlider v))))
      with (kw (physicsState s)) in Hk. lra.
Qed.

Lemma component_step_settled (s : Sim) (a : Action) :
  settled s -> well_formed_action a -> settled (component_step s a).
Proof.
  intros Hs Hwf. destruct a as [dt | e dt |]; cbn [component_step].
  - apply render_settled. now apply settled_frame_ready.
  - apply render_settled. apply step_frame_ready; [exact Hs|apply Hwf].
  - exact Hs.
Qed.

Lemma component_run_settled (acts : list Action) (s : Sim) :
  settled s -> Forall well_formed_action acts -> settled (component_run s acts).
Proof.
  intros Hs Hall. revert s Hs.
  induction Hall as [|a acts Ha Hall IH]; intros s Hs; [exact Hs|].
  change (component_run s (a :: acts))
    with (component_run (component_step s a) acts).
  apply IH. now apply component_step_settled.
Qed.

Lemma initialSim_settled : settled initialSim.
Proof.
  split; [split; [exact initialSim_in_range|qdecide]|].
  split; [qdecide|].
  split; [intros Hw; vm_compute in Hw; exfalso; apply Hw; reflexivity|].
  split; [intros Hk; vm_compute in Hk; exfalso; apply Hk; reflexivity|].
  intros Hw; vm_compute in Hw; exfalso; apply Hw; reflexivity.
Qed.

(** On a settled state the sampler's order of tests and the specified one
    give the same status. *)
Lemma settled_status (s : Sim) :
  settled s ->
  sample_status s
  = status_by_spec (deploymentRef s) (envWindSpeed s) (tsr (physicsState s))
      (optimalTsr (physicsState s)) (isRunaway (physicsState s)).
Proof.
  intros (_ & _ & Hcalm & _).
  unfold sample_status, classify_status, status_by_spec.
  destruct (ltbP (deploymentRef s) 0.5) as [Hlow | Hup]; [reflexivity|].
  destruct (lebP (envWindSpeed s) 3) as [Hw | Hw]; cbn [orb]; [|reflexivity].
  assert (Hd : 0.5 <= deploymentRef s).
  { destruct (Qlt_le_dec (deploymentRef s) 0.5); [contradiction|assumption]. }
  now rewrite (Hcalm Hw Hd).
Qed.

(** ** C2: status precedence *)

(** C2.  For every state the UI timer samples in a run of the component,
    the reported status follows this precedence: GROUNDED if the deployment
    is below 0.5 or the wind is at most 3; else RUNAWAY if the runaway flag
    is set; else STALL if [tsr < optimalTsr * 0.6]; else OVERSPEED if
    [tsr > optimalTsr * 1.25]; else OPTIMAL.  In particular a sample with
    wind at most 3 is GROUNDED also when the rotor is deployed; the sampler
    tests the runaway flag before the wind, but the frame the component
    runs at once on a change of the wind has cleared the flag of a deployed
    rotor by then, so a deployed sample in such a wind never carries it. *)
Theorem C2_status_on_samples (acts : list Action) :
  Forall well_formed_action acts ->
  let s := component_run initialSim acts in
  let d := deploymentRef s in
  let w := envWindSpeed s in
  let t := tsr (physicsState s) in
  let o := optimalTsr (physicsState s) in
  let r := isRunaway (physicsState s) in
  let status := uiStatus (uiInterval s) in
  status = status_by_spec d w t o r
  /\ (d < 0.5 \/ w <= 3 -> status = "GROUNDED"%string)
  /\ (0.5 <= d -> 3 < w -> r = true -> status = "RUNAWAY"%string)
  /\ (0.5 <= d -> 3 < w -> r = false -> t < o * 0.6 ->
      status = "STALL"%string)
  /\ (0.5 <= d -> 3 < w -> r = false -> o * 0.6 <= t -> o * 1.25 < t ->
      status = "OVERSPEED"%string)
  /\ (0.5 <= d -> 3 < w -> r = false -> o * 0.6 <= t -> t <= o * 1.25 ->
      status = "OPTIMAL"%string)
  /\ (w <= 3 -> 0.5 <= d -> r = false).
Proof.
  intros Hall s d w t o r status.
  assert (Hs : settled s).
  { apply component_run_settled; [exact initialSim_settled|exact Hall]. }
  assert (E : status = status_by_spec d w t o r) by (apply settled_status; exact Hs).
  split; [exact E|]. rewrite E. clear E.
  destruct Hs as (_ & _ & Hcalm & _).
  unfold status_by_spec, gtb.
  repeat split.
  - intros [Hd | Hw].
    + destruct (ltbP d 0.5); [reflexivity|contradiction].
    + destruct (ltbP d 0.5); [reflexivity|].
      destruct (lebP w 3); [reflexivity|contradiction].
  - intros Hd Hw Hr. rewrite Hr.
    destruct (ltbP d 0.5); [lra|]. destruct (lebP w 3); [lra|reflexivity].
  - intros Hd Hw Hr Ht. rewrite Hr.
    destruct (ltbP d 0.5); [lra|]. destruct (lebP w 3); [lra|]. cbn [orb].
    destruct (ltbP t (o * 0.6)); [reflexivity|contradiction].
  - intros Hd Hw Hr Ht Hfast. rewrite Hr.
    destruct (ltbP d 0.5); [lra|]. destruct (lebP w 3); [lra|]. cbn [orb].
    destruct (ltbP t (o * 0.6)); [lra|].
    destruct (ltbP (o * 1.25) t); [reflexivity|contradiction].
  - intros Hd Hw Hr Ht Hslow. rewrite Hr.
    destruct (ltbP d 0.5); [lra|]. destruct (lebP w 3); [lra|]. cbn [orb].
    destruct (ltbP t (o * 0.6)); [lra|].
    destruct (ltbP (o * 1.25) t); [lra|reflexivity].
  - exact Hcalm.
Qed.

Lemma C2_status_on_samples_witness :
  let s := component_run initialSim
             [Input (WindSlider 2) 0.016; Frame 0.016; Sample;
              Input (TorqueSlider 80) 0.016] in
  uiStatus (uiInterval s) = "GROUNDED"%string.
Proof.
  intros s.
  assert (Hall : Forall well_formed_action
                   [Input (WindSlider 2) 0.016; Frame 0.016; Sample;
                    Input (TorqueSlider 80) 0.016])
    by (repeat constructor; qdecide).
  destruct (C2_status_on_samples _ Hall) as (_ & Hgrounded & _).
  apply Hgrounded. right. qdecide.
Defined.

(** ** C10: the grounded flag and the GROUNDED status *)

(** C10.  For every state the UI timer samples in a run of the component:
    the grounded flag is true exactly when the deployment is below 0.1,
    while the status is GROUNDED already when the deployment is below 0.5
    (or the wind is at most 3); hence with a deployment in [[0.1, 0.5)] the
    status is GROUNDED while the grounded flag is false. *)
Theorem C10_thresholds_on_samples (acts : list Action) :
  Forall well_formed_action acts ->
  let s := component_run initialSim acts in
  let d := deploymentRef s in
  let ui := uiInterval s in
  (uiGrounded ui = true <-> d < 0.1)
  /\ (d < 0.5 \/ envWindSpeed s <= 3 -> uiStatus ui = "GROUNDED"%string)
  /\ (0.1 <= d -> d < 0.5 ->
      uiStatus ui = "GROUNDED"%string /\ uiGrounded ui = false).
Proof.
  intros Hall s d ui.
  assert (Hs : settled s).
  { apply component_run_settled; [exact initialSim_settled|exact Hall]. }
  assert (Hflag : uiGrounded ui = true <-> d < 0.1).
  { subst ui. cbn [uiInterval uiGrounded]. unfold grounded_flag. fold d.
    destruct (ltbP d 0.1); split; intros; first [assumption | reflexivity
                                                 | discriminate | contradiction]. }
  assert (Hstatus : d < 0.5 \/ envWindSpeed s <= 3 ->
                    uiStatus ui = "GROUNDED"%string).
  { intros Hcase. subst ui. cbn [uiInterval uiStatus].
    rewrite (settled_status s Hs). fold d. unfold status_by_spec.
    destruct Hcase as [Hd | Hw].
    - destruct (ltbP d 0.5); [reflexivity|contradiction].
    - destruct (ltbP d 0.5); [reflexivity|].
      destruct (lebP (envWindSpeed s) 3); [reflexivity|contradiction]. }
  split; [exact Hflag|]. split; [exact Hstatus|].
  intros Hlo Hhi. split; [apply Hstatus; now left|].
  destruct (uiGrounded ui); [|reflexivity].
  assert (d < 0.1) by (now apply Hflag). lra.
Qed.

Lemma C10_thresholds_on_samples_witness :
  let s := component_run initialSim [Input (WindSlider 0) 1] in
  uiStatus (uiInterval s) = "GROUNDED"%string
  /\ uiGrounded (uiInterval s) = false.
Proof.
  intros s.
  assert (Hall : Forall well_formed_action [Input (WindSlider 0) 1])
    by (repeat constructor; qdecide).
  destruct (C10_thresholds_on_samples _ Hall) as (_ & _ & Hband).
  apply Hband; qdecide.
Defined.
